(** * XYK: a constant-product pool runtime module

    Shallow embedding of [src/runtime/XYK.ts] (kaupangdx/dex-runtime) and
    the properties of its pool identities, its reserve arithmetic and its
    three runtime methods [createPool], [sell] and [buy]. *)

From Stdlib Require Import NArith Lia String.
From stdpp Require Import base option countable gmap.

Local Open Scope N_scope.

(** ** The numeric and key types of snarkyjs

    A [Field] element is represented by its canonical natural number;
    [Field.greaterThan] and [Field.equals] compare these numbers. *)

Definition Field : Type := N.

(** [class TokenId extends Field] *)
Definition TokenId : Type := Field.

(** [Provable.if(condition, type, x, y)] *)
Definition Provable_if {A : Type} (condition : bool) (x y : A) : A :=
  if condition then x else y.

(** A curve point, and a public key: the point's [x] with the parity of
    its [y]. *)
Record Group : Type := mkGroup { Group_x : Field; Group_y : Field }.

Record PublicKey : Type := mkPublicKey { PublicKey_x : Field; isOdd : bool }.

#[global] Instance PublicKey_eq_dec : EqDecision PublicKey.
Proof. solve_decision. Defined.

#[global] Instance PublicKey_countable : Countable PublicKey.
Proof.
  refine (inj_countable' (fun k => (PublicKey_x k, isOdd k))
            (fun p => mkPublicKey p.1 p.2) _).
  intros []; reflexivity.
Defined.

(** [PublicKey.fromGroup] *)
Definition PublicKey_fromGroup (g : Group) : PublicKey :=
  mkPublicKey (Group_x g) (N.odd (Group_y g)).

(** [Group.fromFields([x, y])] *)
Definition Group_fromFields (fields : list Field) : Group :=
  match fields with
  | [x; y] => mkGroup x y
  | _ => mkGroup 0 0
  end.

(** The two hash functions of the [Poseidon] object. [hashToGroup] gives
    an [x] and the two candidate ordinates [y.x0], [y.x1]. *)
Record HashedPoint : Type :=
  mkHashedPoint { hp_x : Field; hp_x0 : Field; hp_x1 : Field }.

Class Poseidon : Type := {
  Poseidon_hash : list Field -> Field;
  Poseidon_hashToGroup : list Field -> HashedPoint
}.

(** Modelled from the spec: the class [Balance] is declared in
    [./Balances], whose source is absent; it is "a non-negative
    fixed-width integer amount", used here through the methods of the
    unsigned integers of snarkyjs ([mul], [add], [sub], [div],
    [greaterThan], ...). Its width in bits, their [NUM_BITS], is left a
    parameter. *)
Class UIntWidth : Type := { NUM_BITS : N }.

(** ** Faults and the runtime-method monad

    Arithmetic on [Balance] is range checked: a result outside
    [0 .. 2^NUM_BITS - 1] and a division by zero throw. A thrown fault
    ends the method; a failed [assert] does not: it clears the status of
    the execution context, and the method runs on. This is why the
    source pads a reserve before it subtracts and replaces a zero
    divisor by one. *)

Inductive Fault : Type :=
| RangeCheckFailed
| DivisionByZero.

(** [class BalancesKey extends Struct({ tokenId, address })] *)
Definition BalancesKey : Type := (TokenId * PublicKey)%type.

Definition Balance : Type := N.

Record ExecutionContext : Type := mkContext {
  sender : PublicKey;                    (* this.transaction.sender *)
  status : bool;                         (* result.status *)
  statusMessage : option string;         (* result.statusMessage *)
  pools : gmap PublicKey Field;          (* XYK.pools *)
  balances : gmap (TokenId * PublicKey) N  (* Balances.balances *)
}.

Definition M (A : Type) : Type :=
  ExecutionContext -> Fault + (A * ExecutionContext).

#[global] Instance M_ret : MRet M := fun A a ctx => inr (a, ctx).

#[global] Instance M_bind : MBind M := fun A B f m ctx =>
  match m ctx with
  | inl fault => inl fault
  | inr (a, ctx') => f a ctx'
  end.

Definition lift {A : Type} (r : Fault + A) : M A := fun ctx =>
  match r with
  | inl fault => inl fault
  | inr a => inr (a, ctx)
  end.

(** [assert(condition, message?)] of [@proto-kit/protocol]: the status
    becomes its conjunction with [condition]; on a false [condition] the
    message is recorded unless one is recorded already
    ([statusMessage ??= message]). *)
Definition assert (condition : bool) (message : option string) : M unit :=
  fun ctx =>
    inr (tt, mkContext (sender ctx)
               (condition && status ctx)
               (if condition then statusMessage ctx
                else match statusMessage ctx with
                     | Some m => Some m
                     | None => message
                     end)
               (pools ctx) (balances ctx)).

Definition transaction_sender : M PublicKey := fun ctx => inr (sender ctx, ctx).

(** ** [Balance]: the range-checked unsigned arithmetic of snarkyjs *)

Module Balance.
Section Ops.
Context {W : UIntWidth}.

Definition fits (z : N) : bool := z <? 2 ^ NUM_BITS.

Definition from (n : N) : Balance := n.

(** Addition with overflow checking. *)
Definition add (x y : Balance) : Fault + Balance :=
  if fits (x + y) then inr (x + y) else inl RangeCheckFailed.

(** Subtraction with underflow checking. *)
Definition sub (x y : Balance) : Fault + Balance :=
  if y <=? x then inr (x - y) else inl RangeCheckFailed.

(** Multiplication with overflow checking. *)
Definition mul (x y : Balance) : Fault + Balance :=
  if fits (x * y) then inr (x * y) else inl RangeCheckFailed.

(** Integer division; the quotient is rounded down. *)
Definition div (x y : Balance) : Fault + Balance :=
  if y =? 0 then inl DivisionByZero else inr (x / y).

Definition greaterThan (x y : Balance) : bool := y <? x.
Definition greaterThanOrEqual (x y : Balance) : bool := y <=? x.
Definition lessThanOrEqual (x y : Balance) : bool := x <=? y.

End Ops.
End Balance.

(** ** The ledger *)

(** The [Balances] module ([./Balances]) is injected into [XYK]; its
    source is absent, and its operations follow the ledger contract of
    the specification. A failure is an [assert], as everywhere
    in the runtime; the contract names no failure but InsufficientBalance,
    so a credit is a plain addition. *)
Module Balances.

(** Modelled from the spec: the message of [Balances.transfer] (source
    absent) on a short balance, named after the error kind
    InsufficientBalance. *)
Definition insufficientBalance : string := "InsufficientBalance".

(** Modelled from the spec: [Balances.getBalance] (source absent),
    [getBalance(tokenId, account)] "returns current non-negative balance;
    zero if none recorded". *)
Definition getBalance (tokenId : TokenId) (address : PublicKey) : M Balance :=
  fun ctx => inr (default 0 (balances ctx !! (tokenId, address)), ctx).

(** Modelled from the spec: the write of a balance behind a debit or a
    credit of [Balances] (source absent). *)
Definition setBalance (tokenId : TokenId) (address : PublicKey)
    (amount : Balance) : M unit :=
  fun ctx =>
    inr (tt, mkContext (sender ctx) (status ctx) (statusMessage ctx)
               (pools ctx) (<[(tokenId, address) := amount]> (balances ctx))).

(** Modelled from the spec: [Balances.transfer] (source absent),
    [transfer(tokenId, from, to, amount)] "fails with InsufficientBalance
    if from's balance < amount; otherwise atomically debits from and
    credits to". *)
Definition transfer (tokenId : TokenId) (from to : PublicKey)
    (amount : Balance) : M unit :=
  fromBalance ← getBalance tokenId from;
  let fromBalanceIsSufficient := amount <=? fromBalance in
  assert fromBalanceIsSufficient (Some insufficientBalance);;
  if fromBalanceIsSufficient then
    setBalance tokenId from (fromBalance - amount);;
    toBalance ← getBalance tokenId to;
    setBalance tokenId to (toBalance + amount)
  else mret tt.

(** Modelled from the spec: [Balances.mint] (source absent),
    [mint(tokenId, to, amount)] "atomically credits to; always
    succeeds". *)
Definition mint (tokenId : TokenId) (address : PublicKey)
    (amount : Balance) : M unit :=
  balance ← getBalance tokenId address;
  setBalance tokenId address (balance + amount).

End Balances.

(** ** Error messages and pool identity *)

(** [export const errors] *)
Module errors.
Definition poolExists : string := "Pool already exists".
Definition tokensMatch : string := "Cannot create pool with matching tokens".
Definition tokenOutAmountTooLow : string := "Token out amount too low".
Definition tokenInAmountTooHigh : string := "Token in amount too high".
End errors.

Record TokenPair : Type := mkTokenPair {
  tokenInId : TokenId;
  tokenOutId : TokenId
}.

Module TokenPair.

Definition toFields (pair : TokenPair) : list Field :=
  [tokenInId pair; tokenOutId pair].

Definition from (tokenInId tokenOutId : TokenId) : TokenPair :=
  Provable_if (tokenOutId <? tokenInId)
    (mkTokenPair tokenInId tokenOutId)
    (mkTokenPair tokenOutId tokenInId).

End TokenPair.

Module LPTokenId.
Section Derive.
Context {P : Poseidon}.

Definition fromTokenIdPair (tokenInId tokenOutId : TokenId) : TokenId :=
  Poseidon_hash (TokenPair.toFields (TokenPair.from tokenInId tokenOutId)).

End Derive.
End LPTokenId.

(** [class PoolKey extends PublicKey] *)
Definition PoolKey : Type := PublicKey.

Module PoolKey.
Section Derive.
Context {P : Poseidon}.

Definition fromTokenIdPair (tokenInId tokenOutId : TokenId) : PoolKey :=
  let tokenPair := TokenPair.from tokenInId tokenOutId in
  let h := Poseidon_hashToGroup (TokenPair.toFields tokenPair) in
  let key := PublicKey_fromGroup (Group_fromFields [hp_x h; hp_x0 h]) in
  key.

End Derive.
End PoolKey.

(** ** The runtime module *)

Module XYK.
Section Methods.
Context {P : Poseidon} {W : UIntWidth}.

Definition defaultPoolValue : Field := 0.

(** [this.pools.get(key)] and [this.pools.set(key, value)] *)
Definition pools_get (key : PoolKey) : M (option Field) :=
  fun ctx => inr (pools ctx !! key, ctx).

Definition pools_set (key : PoolKey) (value : Field) : M unit :=
  fun ctx =>
    inr (tt, mkContext (sender ctx) (status ctx) (statusMessage ctx)
               (<[key := value]> (pools ctx)) (balances ctx)).

Definition poolExists (tokenInId tokenOutId : TokenId) : M bool :=
  let key := PoolKey.fromTokenIdPair tokenInId tokenOutId in
  pool ← pools_get key;
  mret (bool_decide (is_Some pool)).

Definition assertPoolExists (tokenInId tokenOutId : TokenId) : M unit :=
  exists_ ← poolExists tokenInId tokenOutId;
  assert exists_ (Some errors.poolExists).

Definition createPool (tokenInId tokenOutId : TokenId)
    (tokenInAmount tokenOutAmount : Balance) : M unit :=
  assert (negb (tokenInId =? tokenOutId)) (Some errors.tokensMatch);;
  exists_ ← poolExists tokenInId tokenOutId;
  assert (negb exists_) (Some errors.poolExists);;
  let key := PoolKey.fromTokenIdPair tokenInId tokenOutId in
  pools_set key defaultPoolValue;;
  creator ← transaction_sender;
  let pool := PoolKey.fromTokenIdPair tokenInId tokenOutId in
  Balances.transfer tokenInId creator pool tokenInAmount;;
  Balances.transfer tokenOutId creator pool tokenOutAmount;;
  let lpTokenId := LPTokenId.fromTokenIdPair tokenInId tokenOutId in
  Balances.mint lpTokenId creator tokenInAmount.

Definition calculateTokenOutAmountFromReserves
    (tokenInReserve tokenOutReserve tokenInAmount : Balance) : M Balance :=
  numerator ← lift (Balance.mul tokenOutReserve tokenInAmount);
  denominator ← lift (Balance.add tokenInReserve tokenInAmount);
  tokenOutAmount ← lift (Balance.div numerator denominator);
  mret tokenOutAmount.

Definition calculateTokenOutAmount (tokenInId tokenOutId : TokenId)
    (tokenInAmount : Balance) : M Balance :=
  let pool := PoolKey.fromTokenIdPair tokenInId tokenOutId in
  tokenInReserve ← Balances.getBalance tokenInId pool;
  tokenOutReserve ← Balances.getBalance tokenOutId pool;
  calculateTokenOutAmountFromReserves
    tokenInReserve tokenOutReserve tokenInAmount.

Definition calculateTokenInAmountFromReserves
    (tokenInReserve tokenOutReserve tokenOutAmount : Balance) : M Balance :=
  paddedTokenOutReserve ← lift (Balance.add tokenOutReserve tokenOutAmount);
  let tokenOutReserveIsSufficient :=
    Balance.greaterThanOrEqual tokenOutReserve tokenOutAmount in
  let safeTokenOutReserve :=
    Provable_if tokenOutReserveIsSufficient
      tokenOutReserve paddedTokenOutReserve in
  numerator ← lift (Balance.mul tokenInReserve tokenOutAmount);
  denominator ← lift (Balance.sub safeTokenOutReserve tokenOutAmount);
  let denominatorIsSafe := Balance.greaterThan denominator (Balance.from 0) in
  let safeDenominator :=
    Provable_if denominatorIsSafe denominator (Balance.from 1) in
  assert denominatorIsSafe None;;
  tokenInAmount ← lift (Balance.div numerator safeDenominator);
  mret tokenInAmount.

Definition calculateTokenInAmount (tokenInId tokenOutId : TokenId)
    (tokenOutAmount : Balance) : M Balance :=
  let pool := PoolKey.fromTokenIdPair tokenInId tokenOutId in
  tokenInReserve ← Balances.getBalance tokenInId pool;
  tokenOutReserve ← Balances.getBalance tokenOutId pool;
  calculateTokenInAmountFromReserves
    tokenInReserve tokenOutReserve tokenOutAmount.

Definition sell (tokenInId tokenOutId : TokenId)
    (tokenInAmount minTokenOutAmount : Balance) : M unit :=
  assertPoolExists tokenInId tokenOutId;;
  let pool := PoolKey.fromTokenIdPair tokenInId tokenOutId in
  tokenOutAmount ← calculateTokenOutAmount tokenInId tokenOutId tokenInAmount;
  let isTokenOutAmountSufficient :=
    Balance.greaterThanOrEqual tokenOutAmount minTokenOutAmount in
  assert isTokenOutAmountSufficient (Some errors.tokenOutAmountTooLow);;
  sender_ ← transaction_sender;
  Balances.transfer tokenInId sender_ pool tokenInAmount;;
  sender_ ← transaction_sender;
  Balances.transfer tokenOutId pool sender_ tokenOutAmount.

Definition buy (tokenInId tokenOutId : TokenId)
    (tokenOutAmount maxTokenInAmount : Balance) : M unit :=
  assertPoolExists tokenInId tokenOutId;;
  let pool := PoolKey.fromTokenIdPair tokenInId tokenOutId in
  tokenInAmount ← calculateTokenInAmount tokenInId tokenOutId tokenOutAmount;
  let isMaxTokenInAmountSufficient :=
    Balance.lessThanOrEqual tokenInAmount maxTokenInAmount in
  assert isMaxTokenInAmountSufficient (Some errors.tokenInAmountTooHigh);;
  sender_ ← transaction_sender;
  Balances.transfer tokenOutId pool sender_ tokenOutAmount;;
  sender_ ← transaction_sender;
  Balances.transfer tokenInId sender_ pool tokenInAmount.

End Methods.
End XYK.

(** ** Transactions

    The runtime of [@proto-kit] runs the method of a transaction more
    than once, each time on a fresh execution context: first over an empty
    state, when the call is captured and the keys it touches are
    discovered, then over the committed state. A fault thrown in the
    first run ends the transaction; its status and its writes are
    dropped. The state the method leaves in the second run is committed
    only when the status is still set at the end; a cleared status or a
    fault leaves the committed state as it was, and the transaction
    reports the recorded message. *)

Record State : Type := mkState {
  st_pools : gmap PublicKey Field;
  st_balances : gmap (TokenId * PublicKey) N
}.

Inductive TxStatus : Type :=
| Succeeded
| Failed (message : option string)
| Threw (fault : Fault).

Definition enter (from : PublicKey) (s : State) : ExecutionContext :=
  mkContext from true None (st_pools s) (st_balances s).

Definition emptyState : State := mkState ∅ ∅.

(** The run over the committed state. *)
Definition commitTx (from : PublicKey) (method : M unit) (s : State)
    : TxStatus * State :=
  match method (enter from s) with
  | inl fault => (Threw fault, s)
  | inr (_, ctx) =>
      if status ctx then (Succeeded, mkState (pools ctx) (balances ctx))
      else (Failed (statusMessage ctx), s)
  end.

(** The run over the empty state, then the run over the committed one. *)
Definition executeTx (from : PublicKey) (method : M unit) (s : State)
    : TxStatus * State :=
  match method (enter from emptyState) with
  | inl fault => (Threw fault, s)
  | inr _ => commitTx from method s
  end.

(** A transaction calls one of the three runtime methods for a signer;
    a chain is the committed state after a list of transactions. *)

Inductive Call : Type :=
| CreatePool (tokenInId tokenOutId : TokenId)
    (tokenInAmount tokenOutAmount : Balance)
| Sell (tokenInId tokenOutId : TokenId)
    (tokenInAmount minTokenOutAmount : Balance)
| Buy (tokenInId tokenOutId : TokenId)
    (tokenOutAmount maxTokenInAmount : Balance).

Definition method {P : Poseidon} {W : UIntWidth} (call : Call) : M unit :=
  match call with
  | CreatePool tokenInId tokenOutId tokenInAmount tokenOutAmount =>
      XYK.createPool tokenInId tokenOutId tokenInAmount tokenOutAmount
  | Sell tokenInId tokenOutId tokenInAmount minTokenOutAmount =>
      XYK.sell tokenInId tokenOutId tokenInAmount minTokenOutAmount
  | Buy tokenInId tokenOutId tokenOutAmount maxTokenInAmount =>
      XYK.buy tokenInId tokenOutId tokenOutAmount maxTokenInAmount
  end.

Definition applyTx {P : Poseidon} {W : UIntWidth}
    (s : State) (tx : PublicKey * Call) : State :=
  (executeTx tx.1 (method tx.2) s).2.

Definition applyTxs {P : Poseidon} {W : UIntWidth}
    (txs : list (PublicKey * Call)) (s : State) : State :=
  fold_left applyTx txs s.

(** ** Views of the ledger and of the execution context

    What a balance reads as, and what a debit, a credit and a failed
    assertion leave behind; the runs of the ledger operations are stated
    with these. *)

Definition balanceOf (tokenId : TokenId) (address : PublicKey)
    (b : gmap (TokenId * PublicKey) N) : N :=
  default 0 (b !! (tokenId, address)).

Definition debit (tokenId : TokenId) (address : PublicKey) (amount : N)
    (b : gmap (TokenId * PublicKey) N) : gmap (TokenId * PublicKey) N :=
  <[(tokenId, address) := balanceOf tokenId address b - amount]> b.

Definition credit (tokenId : TokenId) (address : PublicKey) (amount : N)
    (b : gmap (TokenId * PublicKey) N) : gmap (TokenId * PublicKey) N :=
  <[(tokenId, address) := balanceOf tokenId address b + amount]> b.

Definition move (tokenId : TokenId) (from to : PublicKey) (amount : N)
    (b : gmap (TokenId * PublicKey) N) : gmap (TokenId * PublicKey) N :=
  credit tokenId to amount (debit tokenId from amount b).

Definition set_balances (b : gmap (TokenId * PublicKey) N)
    (ctx : ExecutionContext) : ExecutionContext :=
  mkContext (sender ctx) (status ctx) (statusMessage ctx) (pools ctx) b.

Definition set_pools (p : gmap PublicKey Field)
    (ctx : ExecutionContext) : ExecutionContext :=
  mkContext (sender ctx) (status ctx) (statusMessage ctx) p (balances ctx).

Definition fail_with (message : option string)
    (ctx : ExecutionContext) : ExecutionContext :=
  mkContext (sender ctx) false
    (match statusMessage ctx with Some m => Some m | None => message end)
    (pools ctx) (balances ctx).

Definition after_assert (condition : bool) (message : option string)
    (ctx : ExecutionContext) : ExecutionContext :=
  if condition then ctx else fail_with message ctx.

Definition after_transfer (tokenId : TokenId) (from to : PublicKey)
    (amount : Balance) (ctx : ExecutionContext) : ExecutionContext :=
  if amount <=? balanceOf tokenId from (balances ctx)
  then set_balances (move tokenId from to amount (balances ctx)) ctx
  else fail_with (Some Balances.insufficientBalance) ctx.

(** A context whose status is cleared, with the message it reports. *)
Definition failed (message : string) (ctx : ExecutionContext) : Prop :=
  status ctx = false /\ statusMessage ctx = Some message.

(** ** Fixtures

    The tokens, the signer and the amounts of [XYK.test.ts], a 64-bit
    [Balance], and a small stand-in for the two hash functions. *)

Definition w64 : UIntWidth := {| NUM_BITS := 64 |}.

Definition toyPoseidon : Poseidon := {|
  Poseidon_hash := fun fields => 1000 + fold_right (fun f acc => f + 7 * acc) 0 fields;
  Poseidon_hashToGroup := fun fields =>
    mkHashedPoint (fold_right (fun f acc => f + 7 * acc) 0 fields) 3 4
|}.

Definition alice : PublicKey := mkPublicKey 999 false.

Definition genesis : State := mkState ∅ ∅.

(** Alice after the two mints of 10_000 of the first test. *)
Definition funded : State :=
  mkState ∅ (<[(0, alice) := 10000]> (<[(1, alice) := 10000]> ∅)).

(** The state after the pool creation of the test: tokens 0 and 1 seeded
    with 1000 and 2000. *)
Definition pooled : State :=
  (executeTx alice (XYK.createPool (P := toyPoseidon) 0 1 1000 2000) funded).2.

(** ** Pool identity is independent of the direction of the pair *)

Lemma TokenPair_from_comm (a b : TokenId) :
  TokenPair.from a b = TokenPair.from b a.
Proof.
  unfold TokenPair.from, Provable_if.
  destruct (N.ltb_spec b a) as [Hba | Hba], (N.ltb_spec a b) as [Hab | Hab];
    try reflexivity; try lia.
  assert (a = b) by lia. subst. reflexivity.
Qed.

Lemma PoolKey_fromTokenIdPair_comm {P : Poseidon} (a b : TokenId) :
  PoolKey.fromTokenIdPair a b = PoolKey.fromTokenIdPair b a.
Proof.
  unfold PoolKey.fromTokenIdPair. rewrite (TokenPair_from_comm a b).
  reflexivity.
Qed.

Lemma LPTokenId_fromTokenIdPair_comm {P : Poseidon} (a b : TokenId) :
  LPTokenId.fromTokenIdPair a b = LPTokenId.fromTokenIdPair b a.
Proof.
  unfold LPTokenId.fromTokenIdPair. rewrite (TokenPair_from_comm a b).
  reflexivity.
Qed.

(** C1. For any two token identifiers (distinct or not), the canonical
    pair, the pool key and the LP token identifier are the same for both
    orders of the arguments. *)
Theorem canonical_identity {P : Poseidon} (a b : TokenId) :
  TokenPair.from a b = TokenPair.from b a
  /\ PoolKey.fromTokenIdPair a b = PoolKey.fromTokenIdPair b a
  /\ LPTokenId.fromTokenIdPair a b = LPTokenId.fromTokenIdPair b a.
Proof.
  split; [apply TokenPair_from_comm |].
  split; [apply PoolKey_fromTokenIdPair_comm |].
  apply LPTokenId_fromTokenIdPair_comm.
Qed.

(** ** Reserve arithmetic *)

Section ReserveMath.
Context {P : Poseidon} {W : UIntWidth}.

Lemma fits_lt (z : N) : Balance.fits z = true <-> z < 2 ^ NUM_BITS.
Proof. unfold Balance.fits. apply N.ltb_lt. Qed.

(** The value and the faults of [calculateTokenOutAmountFromReserves],
    case by case. *)
Lemma calculateTokenOutAmountFromReserves_eq
    (tokenInReserve tokenOutReserve tokenInAmount : Balance)
    (ctx : ExecutionContext) :
  XYK.calculateTokenOutAmountFromReserves
    tokenInReserve tokenOutReserve tokenInAmount ctx =
  if Balance.fits (tokenOutReserve * tokenInAmount) then
    if Balance.fits (tokenInReserve + tokenInAmount) then
      if tokenInReserve + tokenInAmount =? 0 then inl DivisionByZero
      else inr (tokenOutReserve * tokenInAmount
                  / (tokenInReserve + tokenInAmount), ctx)
    else inl RangeCheckFailed
  else inl RangeCheckFailed.
Proof.
  unfold XYK.calculateTokenOutAmountFromReserves, Balance.mul, Balance.add,
    Balance.div, lift, mbind, M_bind, mret, M_ret.
  destruct (Balance.fits (tokenOutReserve * tokenInAmount)); [| reflexivity].
  destruct (Balance.fits (tokenInReserve + tokenInAmount)); [| reflexivity].
  destruct (tokenInReserve + tokenInAmount =? 0); reflexivity.
Qed.

(** C2 (amended). With [reserveIn + amountIn > 0], the function returns
    exactly floor((reserveOut * amountIn) / (reserveIn + amountIn)) when
    the product [reserveOut * amountIn] and the sum [reserveIn + amountIn]
    are below [2^NUM_BITS]; when one of them is not, the range check of
    the [Balance] arithmetic throws. *)
Theorem calculateTokenOutAmountFromReserves_floor
    (reserveIn reserveOut amountIn : Balance) (ctx : ExecutionContext) :
  0 < reserveIn + amountIn ->
  XYK.calculateTokenOutAmountFromReserves reserveIn reserveOut amountIn ctx =
  if Balance.fits (reserveOut * amountIn)
     && Balance.fits (reserveIn + amountIn)
  then inr (reserveOut * amountIn / (reserveIn + amountIn), ctx)
  else inl RangeCheckFailed.
Proof.
  intros Hpos. rewrite calculateTokenOutAmountFromReserves_eq.
  destruct (Balance.fits (reserveOut * amountIn)); [| reflexivity].
  destruct (Balance.fits (reserveIn + amountIn)); [| reflexivity].
  destruct (N.eqb_spec (reserveIn + amountIn) 0); [lia | reflexivity].
Qed.

(** C10 (amended). With an empty [tokenIn] reserve and [amountIn > 0],
    the function returns the whole of [reserveOut] when
    [reserveOut * amountIn] (and [amountIn]) is below [2^NUM_BITS]; when
    it is not, the range check throws. *)
Theorem calculateTokenOutAmountFromReserves_empty_reserveIn
    (reserveOut amountIn : Balance) (ctx : ExecutionContext) :
  0 < amountIn ->
  XYK.calculateTokenOutAmountFromReserves 0 reserveOut amountIn ctx =
  if Balance.fits (reserveOut * amountIn) && Balance.fits amountIn
  then inr (reserveOut, ctx)
  else inl RangeCheckFailed.
Proof.
  intros Hpos. rewrite calculateTokenOutAmountFromReserves_eq.
  rewrite N.add_0_l.
  destruct (Balance.fits (reserveOut * amountIn)); [| reflexivity].
  destruct (Balance.fits amountIn); [| reflexivity].
  destruct (N.eqb_spec amountIn 0); [lia |].
  cbn [andb]. rewrite N.div_mul by assumption. reflexivity.
Qed.

(** The value, the status and the faults of
    [calculateTokenInAmountFromReserves], case by case. The subtraction is
    applied to the padded reserve and never underflows; the divisor is
    never zero. *)
Lemma calculateTokenInAmountFromReserves_eq
    (tokenInReserve tokenOutReserve tokenOutAmount : Balance)
    (ctx : ExecutionContext) :
  XYK.calculateTokenInAmountFromReserves
    tokenInReserve tokenOutReserve tokenOutAmount ctx =
  if Balance.fits (tokenOutReserve + tokenOutAmount) then
    if Balance.fits (tokenInReserve * tokenOutAmount) then
      let denominator :=
        if tokenOutAmount <=? tokenOutReserve
        then tokenOutReserve - tokenOutAmount else tokenOutReserve in
      inr (tokenInReserve * tokenOutAmount
             / (if 0 <? denominator then denominator else 1),
           mkContext (sender ctx) ((0 <? denominator) && status ctx)
             (statusMessage ctx) (pools ctx) (balances ctx))
    else inl RangeCheckFailed
  else inl RangeCheckFailed.
Proof.
  unfold XYK.calculateTokenInAmountFromReserves, Balance.mul, Balance.add,
    Balance.sub, Balance.div, Balance.greaterThan, Balance.greaterThanOrEqual,
    Balance.from, Provable_if, assert, lift, mbind, M_bind, mret, M_ret.
  destruct (Balance.fits (tokenOutReserve + tokenOutAmount)); [| reflexivity].
  destruct (Balance.fits (tokenInReserve * tokenOutAmount)); [| reflexivity].
  destruct (N.leb_spec tokenOutAmount tokenOutReserve) as [Hle | Hlt].
  - destruct (N.leb_spec tokenOutAmount tokenOutReserve); [| lia].
    destruct (N.ltb_spec 0 (tokenOutReserve - tokenOutAmount)) as [Hd | Hd].
    + destruct (N.eqb_spec (tokenOutReserve - tokenOutAmount) 0); [lia |].
      reflexivity.
    + cbn. destruct (statusMessage ctx); reflexivity.
  - destruct (N.leb_spec tokenOutAmount (tokenOutReserve + tokenOutAmount));
      [| lia].
    replace (tokenOutReserve + tokenOutAmount - tokenOutAmount)
      with tokenOutReserve by lia.
    destruct (N.ltb_spec 0 tokenOutReserve) as [Hd | Hd].
    + destruct (N.eqb_spec tokenOutReserve 0); [lia |]. reflexivity.
    + cbn. destruct (statusMessage ctx); reflexivity.
Qed.

Lemma context_eta (ctx : ExecutionContext) :
  mkContext (sender ctx) (status ctx) (statusMessage ctx)
    (pools ctx) (balances ctx) = ctx.
Proof. destruct ctx; reflexivity. Qed.

(** C3 (amended). When [reserveOut + amountOut] and
    [reserveIn * amountOut] are below [2^NUM_BITS]: for
    [amountOut < reserveOut] the function returns
    floor(reserveIn*amountOut / (reserveOut - amountOut)); for
    [amountOut > reserveOut] and [reserveOut > 0] it returns
    floor(reserveIn*amountOut / reserveOut). In every case the
    subtraction is taken from the reserve padded as needed, does not
    underflow, and gives [reserveOut] as denominator in the second
    branch. *)
Theorem calculateTokenInAmountFromReserves_floor
    (reserveIn reserveOut amountOut : Balance) (ctx : ExecutionContext) :
  reserveOut + amountOut < 2 ^ NUM_BITS ->
  reserveIn * amountOut < 2 ^ NUM_BITS ->
  (amountOut < reserveOut ->
     XYK.calculateTokenInAmountFromReserves reserveIn reserveOut amountOut ctx
     = inr (reserveIn * amountOut / (reserveOut - amountOut), ctx))
  /\ (reserveOut < amountOut -> 0 < reserveOut ->
     XYK.calculateTokenInAmountFromReserves reserveIn reserveOut amountOut ctx
     = inr (reserveIn * amountOut / reserveOut, ctx))
  /\ Balance.sub
       (Provable_if (Balance.greaterThanOrEqual reserveOut amountOut)
          reserveOut (reserveOut + amountOut))
       amountOut
     = inr (if amountOut <=? reserveOut
            then reserveOut - amountOut else reserveOut).
Proof.
  intros Hpad Hnum.
  apply fits_lt in Hpad. apply fits_lt in Hnum.
  rewrite calculateTokenInAmountFromReserves_eq, Hpad, Hnum. cbv zeta.
  split; [| split].
  - intros Hlt.
    destruct (N.leb_spec amountOut reserveOut); [| lia].
    destruct (N.ltb_spec 0 (reserveOut - amountOut)); [| lia].
    cbn [andb]. rewrite context_eta. reflexivity.
  - intros Hgt Hpos.
    destruct (N.leb_spec amountOut reserveOut); [lia |].
    destruct (N.ltb_spec 0 reserveOut); [| lia].
    cbn [andb]. rewrite context_eta. reflexivity.
  - unfold Balance.sub, Balance.greaterThanOrEqual, Provable_if.
    destruct (N.leb_spec amountOut reserveOut).
    + destruct (N.leb_spec amountOut reserveOut); [reflexivity | lia].
    + destruct (N.leb_spec amountOut (reserveOut + amountOut)); [| lia].
      f_equal. lia.
Qed.

(** C4 (amended). When [reserveOut + amountOut] and
    [reserveIn * amountOut] are below [2^NUM_BITS], the call returns, and
    its [assert], which carries no message, clears the status exactly when
    [amountOut = reserveOut] or [reserveOut = 0], that is, when the
    denominator is zero; the divisor is then 1 and the value returned is
    the numerator. When one of the two is not below [2^NUM_BITS], the call
    throws at the range check, before the [assert], whatever the
    denominator. *)
Theorem calculateTokenInAmountFromReserves_invariant
    (reserveIn reserveOut amountOut : Balance) (ctx : ExecutionContext) :
  (reserveOut + amountOut < 2 ^ NUM_BITS ->
   reserveIn * amountOut < 2 ^ NUM_BITS ->
   exists (v : Balance) (ctx' : ExecutionContext),
     XYK.calculateTokenInAmountFromReserves reserveIn reserveOut amountOut ctx
     = inr (v, ctx')
     /\ status ctx'
        = negb ((amountOut =? reserveOut) || (reserveOut =? 0)) && status ctx
     /\ statusMessage ctx' = statusMessage ctx
     /\ pools ctx' = pools ctx /\ balances ctx' = balances ctx
     /\ (amountOut = reserveOut \/ reserveOut = 0 ->
         v = reserveIn * amountOut / 1))
  /\ (~ (reserveOut + amountOut < 2 ^ NUM_BITS
         /\ reserveIn * amountOut < 2 ^ NUM_BITS) ->
      XYK.calculateTokenInAmountFromReserves reserveIn reserveOut amountOut ctx
      = inl RangeCheckFailed).
Proof.
  rewrite calculateTokenInAmountFromReserves_eq. split.
  - intros Hpad Hnum.
    apply fits_lt in Hpad. apply fits_lt in Hnum. rewrite Hpad, Hnum.
    cbv zeta. eexists _, _. split; [reflexivity |]. cbn.
    repeat split.
    + f_equal.
      destruct (N.leb_spec amountOut reserveOut),
        (N.eqb_spec amountOut reserveOut), (N.eqb_spec reserveOut 0);
        cbn; try lia;
        match goal with
        | |- (0 <? ?d) = _ => destruct (N.ltb_spec 0 d); lia || reflexivity
        end.
    + intros Hz.
      destruct (N.leb_spec amountOut reserveOut).
      * destruct (N.ltb_spec 0 (reserveOut - amountOut)); [lia | reflexivity].
      * destruct (N.ltb_spec 0 reserveOut); [lia | reflexivity].
  - intros Hno.
    destruct (Balance.fits (reserveOut + amountOut)) eqn:Hpad; [| reflexivity].
    destruct (Balance.fits (reserveIn * amountOut)) eqn:Hnum; [| reflexivity].
    apply fits_lt in Hpad. apply fits_lt in Hnum. tauto.
Qed.

(** Rounded-down quotients are ordered as the fractions are. *)
Lemma div_le_cross (a b c d : N) :
  0 < b -> 0 < d -> a * d <= c * b -> a / b <= c / d.
Proof.
  intros Hb Hd Hcross.
  apply N.div_le_lower_bound; [lia |].
  pose proof (N.Div0.mul_div_le a b) as Hq.
  apply (N.mul_le_mono_pos_r _ _ b); [exact Hb |].
  apply N.le_trans with (a * d); [| exact Hcross].
  replace (d * (a / b) * b) with (b * (a / b) * d) by lia.
  apply N.mul_le_mono_r. exact Hq.
Qed.

Lemma calculateTokenOutAmountFromReserves_inv
    (reserveIn reserveOut amountIn out : Balance)
    (ctx ctx' : ExecutionContext) :
  XYK.calculateTokenOutAmountFromReserves reserveIn reserveOut amountIn ctx
  = inr (out, ctx') ->
  0 < reserveIn + amountIn
  /\ out = reserveOut * amountIn / (reserveIn + amountIn)
  /\ ctx' = ctx.
Proof.
  rewrite calculateTokenOutAmountFromReserves_eq.
  destruct (Balance.fits (reserveOut * amountIn)); [| discriminate].
  destruct (Balance.fits (reserveIn + amountIn)); [| discriminate].
  destruct (N.eqb_spec (reserveIn + amountIn) 0); [discriminate |].
  intros [= <- <-]. repeat split. lia.
Qed.

Lemma calculateTokenInAmountFromReserves_inv
    (reserveIn reserveOut amountOut v : Balance)
    (ctx ctx' : ExecutionContext) :
  XYK.calculateTokenInAmountFromReserves reserveIn reserveOut amountOut ctx
  = inr (v, ctx') ->
  status ctx' = true ->
  (amountOut < reserveOut
   /\ v = reserveIn * amountOut / (reserveOut - amountOut))
  \/ (reserveOut < amountOut /\ 0 < reserveOut
      /\ v = reserveIn * amountOut / reserveOut).
Proof.
  rewrite calculateTokenInAmountFromReserves_eq.
  destruct (Balance.fits (reserveOut + amountOut)); [| discriminate].
  destruct (Balance.fits (reserveIn * amountOut)); [| discriminate].
  cbv zeta. intros [= <- <-]. cbn [status].
  destruct (N.leb_spec amountOut reserveOut).
  - destruct (N.ltb_spec 0 (reserveOut - amountOut)); [| discriminate].
    intros _. left. split; [lia | reflexivity].
  - destruct (N.ltb_spec 0 reserveOut); [| discriminate].
    intros _. right. repeat split; lia.
Qed.

(** C9 (amended). For fixed reserves, [calculateTokenOutAmountFromReserves]
    is non-decreasing in [amountIn] wherever it returns, and
    [calculateTokenInAmountFromReserves] is non-decreasing in [amountOut]
    over amounts on which it succeeds and which lie on the same side of
    [reserveOut] (both below it, or both above it). *)
Theorem swap_monotonicity (reserveIn reserveOut a1 a2 : Balance) :
  a1 <= a2 ->
  (forall (o1 o2 : Balance) (c1 c1' c2 c2' : ExecutionContext),
     XYK.calculateTokenOutAmountFromReserves reserveIn reserveOut a1 c1
     = inr (o1, c1') ->
     XYK.calculateTokenOutAmountFromReserves reserveIn reserveOut a2 c2
     = inr (o2, c2') ->
     o1 <= o2)
  /\ (forall (i1 i2 : Balance) (c1 c1' c2 c2' : ExecutionContext),
     a2 < reserveOut \/ reserveOut < a1 ->
     XYK.calculateTokenInAmountFromReserves reserveIn reserveOut a1 c1
     = inr (i1, c1') -> status c1' = true ->
     XYK.calculateTokenInAmountFromReserves reserveIn reserveOut a2 c2
     = inr (i2, c2') -> status c2' = true ->
     i1 <= i2).
Proof.
  intros Hle. split.
  - intros o1 o2 c1 c1' c2 c2' H1 H2.
    apply calculateTokenOutAmountFromReserves_inv in H1 as (Hp1 & -> & _).
    apply calculateTokenOutAmountFromReserves_inv in H2 as (Hp2 & -> & _).
    apply div_le_cross; [assumption | assumption |].
    rewrite <- !N.mul_assoc. apply N.mul_le_mono_l.
    rewrite !N.mul_add_distr_l, (N.mul_comm a2 a1).
    apply N.add_le_mono_r, N.mul_le_mono_r, Hle.
  - intros i1 i2 c1 c1' c2 c2' Hside H1 Hs1 H2 Hs2.
    apply calculateTokenInAmountFromReserves_inv in H1
      as [(Hb1 & ->) | (Ha1 & Hp1 & ->)]; try assumption;
    apply calculateTokenInAmountFromReserves_inv in H2
      as [(Hb2 & ->) | (Ha2 & Hp2 & ->)]; try assumption; try lia.
    + apply div_le_cross; [lia | lia |].
      assert (exists d2, reserveOut = a2 + d2) as [d2 ->]
        by (exists (reserveOut - a2); lia).
      replace (a2 + d2 - a2) with d2 by lia.
      replace (a2 + d2 - a1) with (d2 + (a2 - a1)) by lia.
      assert (exists e, a2 = a1 + e) as [e ->] by (exists (a2 - a1); lia).
      replace (a1 + e - a1) with e by lia.
      nia.
    + apply N.Div0.div_le_mono. nia.
Qed.

End ReserveMath.

(** *** The reserve arithmetic on the fixture and at the range limit *)

(** The sale of the test: 100 against reserves 1000/2000 gives 181. *)
Lemma calculateTokenOutAmountFromReserves_floor_witness :
  0 < 1000 + 100
  /\ XYK.calculateTokenOutAmountFromReserves (W := w64) 1000 2000 100
       (enter alice funded)
     = inr (181, enter alice funded).
Proof.
  split; [reflexivity |].
  rewrite (calculateTokenOutAmountFromReserves_floor (W := w64))
    by reflexivity.
  reflexivity.
Defined.

(** C2 as stated fails where the product leaves the 64-bit range: with
    reserves 0 / 2^63 and an input of 2 the quotient 2^63 is never
    computed, the multiplication throws. *)
Lemma calculateTokenOutAmountFromReserves_overflow :
  0 < 0 + 2
  /\ XYK.calculateTokenOutAmountFromReserves (W := w64) 0 (2 ^ 63) 2
       (enter alice genesis)
     = inl RangeCheckFailed
  /\ XYK.calculateTokenOutAmountFromReserves (W := w64) 0 (2 ^ 63) 2
       (enter alice genesis)
     <> inr (2 ^ 63 * 2 / (0 + 2), enter alice genesis).
Proof.
  split; [reflexivity |].
  split; [vm_compute; reflexivity | vm_compute; discriminate].
Qed.

Lemma calculateTokenOutAmountFromReserves_empty_reserveIn_witness :
  0 < 5
  /\ XYK.calculateTokenOutAmountFromReserves (W := w64) 0 2000 5
       (enter alice funded)
     = inr (2000, enter alice funded).
Proof.
  split; [reflexivity |].
  rewrite (calculateTokenOutAmountFromReserves_empty_reserveIn (W := w64))
    by reflexivity.
  reflexivity.
Defined.

(** C10 as stated fails for a large reserve: with [tokenIn] reserve 0,
    [tokenOut] reserve 2^64 - 1 and an input of 2 the call throws instead
    of returning the reserve. *)
Lemma calculateTokenOutAmountFromReserves_empty_reserveIn_overflow :
  0 < 2
  /\ XYK.calculateTokenOutAmountFromReserves (W := w64) 0 (2 ^ 64 - 1) 2
       (enter alice genesis)
     = inl RangeCheckFailed
  /\ XYK.calculateTokenOutAmountFromReserves (W := w64) 0 (2 ^ 64 - 1) 2
       (enter alice genesis)
     <> inr (2 ^ 64 - 1, enter alice genesis).
Proof.
  split; [reflexivity |].
  split; [vm_compute; reflexivity | vm_compute; discriminate].
Qed.

(** The purchase of the test (200 against reserves 1100/1819 costs 135),
    and a purchase of more than the reserve. *)
Lemma calculateTokenInAmountFromReserves_floor_witness :
  XYK.calculateTokenInAmountFromReserves (W := w64) 1100 1819 200
    (enter alice funded)
  = inr (135, enter alice funded)
  /\ XYK.calculateTokenInAmountFromReserves (W := w64) 10 10 11
       (enter alice funded)
     = inr (11, enter alice funded).
Proof.
  split.
  - exact (proj1 (calculateTokenInAmountFromReserves_floor (W := w64)
                    1100 1819 200 (enter alice funded) eq_refl eq_refl)
             eq_refl).
  - exact (proj1 (proj2 (calculateTokenInAmountFromReserves_floor (W := w64)
                    10 10 11 (enter alice funded) eq_refl eq_refl))
             eq_refl eq_refl).
Defined.

(** C3 as stated fails where the padded reserve leaves the 64-bit range:
    buying 1 from a reserve of 2^64 - 1 (which covers it) throws, the
    quotient floor(1 * 1 / (2^64 - 2)) = 0 is never computed. *)
Lemma calculateTokenInAmountFromReserves_padding_overflow :
  1 <= 2 ^ 64 - 1
  /\ XYK.calculateTokenInAmountFromReserves (W := w64) 1 (2 ^ 64 - 1) 1
       (enter alice genesis)
     = inl RangeCheckFailed
  /\ XYK.calculateTokenInAmountFromReserves (W := w64) 1 (2 ^ 64 - 1) 1
       (enter alice genesis)
     <> inr (1 * 1 / (2 ^ 64 - 1 - 1), enter alice genesis).
Proof.
  split; [vm_compute; discriminate |].
  split; [vm_compute; reflexivity | vm_compute; discriminate].
Qed.

(** Buying the whole reserve: the status is cleared and the numerator
    comes back undivided. *)
Lemma calculateTokenInAmountFromReserves_invariant_witness :
  exists (v : Balance) (ctx' : ExecutionContext),
    XYK.calculateTokenInAmountFromReserves (W := w64) 1100 1819 1819
      (enter alice funded)
    = inr (v, ctx')
    /\ status ctx' = false /\ statusMessage ctx' = None
    /\ v = 1100 * 1819 / 1.
Proof.
  destruct (proj1 (calculateTokenInAmountFromReserves_invariant (W := w64)
                     1100 1819 1819 (enter alice funded)) eq_refl eq_refl)
    as (v & ctx' & Hrun & Hstatus & Hmsg & _ & _ & Hv).
  exists v, ctx'. repeat split; auto.
Defined.

(** C4 as stated fails where the numerator leaves the 64-bit range: the
    call fails although [amountOut] is neither [reserveOut] nor is
    [reserveOut] zero, and it fails with a fault, not at the [assert]. *)
Lemma calculateTokenInAmountFromReserves_fails_otherwise :
  XYK.calculateTokenInAmountFromReserves (W := w64) (2 ^ 63) 5 2
    (enter alice genesis)
  = inl RangeCheckFailed
  /\ ~ (2 = 5 \/ 5 = 0).
Proof.
  split; [vm_compute; reflexivity | intros [H | H]; discriminate H].
Qed.

Lemma swap_monotonicity_witness :
  100 <= 200 /\ 181 <= 333 /\ 52 <= 111.
Proof.
  assert (H : 100 <= 200) by (vm_compute; discriminate).
  destruct (swap_monotonicity (W := w64) 1000 2000 100 200 H) as [Ho Hi].
  split; [exact H |]. split.
  - exact (Ho 181 333 (enter alice funded) _ (enter alice funded) _
             eq_refl eq_refl).
  - exact (Hi 52 111 (enter alice funded) _ (enter alice funded) _
             (or_introl eq_refl) eq_refl eq_refl eq_refl eq_refl).
Defined.

(** C9 as stated fails across [reserveOut]: with reserves 10/10, buying 9
    succeeds at a price of 90 and buying 11 succeeds at a price of 11. *)
Lemma swap_monotonicity_breaks_across_reserve :
  XYK.calculateTokenInAmountFromReserves (W := w64) 10 10 9
    (enter alice genesis)
  = inr (90, enter alice genesis)
  /\ XYK.calculateTokenInAmountFromReserves (W := w64) 10 10 11
       (enter alice genesis)
     = inr (11, enter alice genesis)
  /\ status (enter alice genesis) = true
  /\ 9 <= 11 /\ ~ 90 <= 11.
Proof.
  repeat split; try (vm_compute; reflexivity); try (vm_compute; discriminate).
  intros H. vm_compute in H. apply H. reflexivity.
Qed.

(** ** Runs of the primitives *)

Lemma assert_run (condition : bool) (message : option string)
    (ctx : ExecutionContext) :
  assert condition message ctx = inr (tt, after_assert condition message ctx).
Proof.
  unfold assert, after_assert, fail_with. destruct condition; cbn [andb].
  - rewrite context_eta. reflexivity.
  - reflexivity.
Qed.

Lemma transfer_run (tokenId : TokenId) (from to : PublicKey)
    (amount : Balance) (ctx : ExecutionContext) :
  Balances.transfer tokenId from to amount ctx
  = inr (tt, after_transfer tokenId from to amount ctx).
Proof.
  unfold Balances.transfer, Balances.getBalance, Balances.setBalance,
    after_transfer, mbind, M_bind, mret, M_ret.
  rewrite assert_run. fold (balanceOf tokenId from (balances ctx)).
  destruct (amount <=? balanceOf tokenId from (balances ctx)); reflexivity.
Qed.

Lemma mint_run (tokenId : TokenId) (address : PublicKey)
    (amount : Balance) (ctx : ExecutionContext) :
  Balances.mint tokenId address amount ctx
  = inr (tt, set_balances (credit tokenId address amount (balances ctx)) ctx).
Proof. reflexivity. Qed.

Lemma poolExists_run {P : Poseidon} (tokenInId tokenOutId : TokenId)
    (ctx : ExecutionContext) :
  XYK.poolExists tokenInId tokenOutId ctx
  = inr (bool_decide
           (is_Some (pools ctx !! PoolKey.fromTokenIdPair tokenInId tokenOutId)),
         ctx).
Proof. reflexivity. Qed.

Lemma pools_set_run (key : PoolKey) (value : Field) (ctx : ExecutionContext) :
  XYK.pools_set key value ctx
  = inr (tt, set_pools (<[key := value]> (pools ctx)) ctx).
Proof. reflexivity. Qed.

Lemma getBalance_run (tokenId : TokenId) (address : PublicKey)
    (ctx : ExecutionContext) :
  Balances.getBalance tokenId address ctx
  = inr (balanceOf tokenId address (balances ctx), ctx).
Proof. reflexivity. Qed.

Ltac run_primitives :=
  repeat (progress (rewrite ?assert_run, ?transfer_run, ?poolExists_run,
                      ?pools_set_run, ?mint_run, ?getBalance_run;
                    cbv beta iota zeta)).

(** *** What the steps keep of a context *)

Lemma after_assert_true (message : option string) (ctx : ExecutionContext) :
  after_assert true message ctx = ctx.
Proof. reflexivity. Qed.

Lemma sender_after_assert c m ctx : sender (after_assert c m ctx) = sender ctx.
Proof. destruct c; reflexivity. Qed.

Lemma pools_after_assert c m ctx : pools (after_assert c m ctx) = pools ctx.
Proof. destruct c; reflexivity. Qed.

Lemma balances_after_assert c m ctx :
  balances (after_assert c m ctx) = balances ctx.
Proof. destruct c; reflexivity. Qed.

Lemma status_after_assert c m ctx :
  status (after_assert c m ctx) = c && status ctx.
Proof. destruct c; reflexivity. Qed.

Lemma sender_after_transfer t f to n ctx :
  sender (after_transfer t f to n ctx) = sender ctx.
Proof. unfold after_transfer. destruct (n <=? _); reflexivity. Qed.

Lemma pools_after_transfer t f to n ctx :
  pools (after_transfer t f to n ctx) = pools ctx.
Proof. unfold after_transfer. destruct (n <=? _); reflexivity. Qed.

Lemma status_after_transfer t f to n ctx :
  status (after_transfer t f to n ctx)
  = (n <=? balanceOf t f (balances ctx)) && status ctx.
Proof. unfold after_transfer. destruct (n <=? _); reflexivity. Qed.

Create Rewrite HintDb context_db.

#[export] Hint Rewrite sender_after_assert pools_after_assert
  balances_after_assert status_after_assert sender_after_transfer
  pools_after_transfer status_after_transfer : context_db.

(** Once an assertion with a message has failed, the status stays cleared
    and the message stays the one recorded first. *)

Lemma failed_fresh (m : string) (ctx : ExecutionContext) :
  statusMessage ctx = None -> failed m (after_assert false (Some m) ctx).
Proof. intros H. split; cbn; [reflexivity | rewrite H; reflexivity]. Qed.

Lemma failed_after_assert m c msg ctx :
  failed m ctx -> failed m (after_assert c msg ctx).
Proof.
  intros [Hs Hm]. destruct c; [split; assumption |].
  split; cbn; [reflexivity | rewrite Hm; reflexivity].
Qed.

Lemma failed_after_transfer m t f to n ctx :
  failed m ctx -> failed m (after_transfer t f to n ctx).
Proof.
  intros [Hs Hm]. unfold after_transfer.
  destruct (n <=? _); [split; assumption |].
  split; cbn; [reflexivity | rewrite Hm; reflexivity].
Qed.

Lemma failed_set_pools m p ctx : failed m ctx -> failed m (set_pools p ctx).
Proof. intros [Hs Hm]. split; assumption. Qed.

Lemma failed_set_balances m b ctx :
  failed m ctx -> failed m (set_balances b ctx).
Proof. intros [Hs Hm]. split; assumption. Qed.

Lemma statusMessage_after_assert_None c ctx :
  statusMessage (after_assert c None ctx) = statusMessage ctx.
Proof. destruct c; cbn; [| destruct (statusMessage ctx)]; reflexivity. Qed.

Create HintDb failed_db.

#[export] Hint Resolve failed_fresh failed_after_assert failed_after_transfer
  failed_set_pools failed_set_balances : failed_db.

#[export] Hint Extern 1 (statusMessage _ = None) =>
  rewrite ?statusMessage_after_assert_None; reflexivity : failed_db.

(** *** What a transaction reports *)

Lemma commitTx_failed (from : PublicKey) (method : M unit) (s : State)
    (ctx : ExecutionContext) (m : string) :
  method (enter from s) = inr (tt, ctx) -> failed m ctx ->
  commitTx from method s = (Failed (Some m), s).
Proof.
  intros Hrun [Hs Hm]. unfold commitTx. rewrite Hrun, Hs, Hm. reflexivity.
Qed.

Lemma executeTx_dry_threw (from : PublicKey) (method : M unit) (s : State)
    (fault : Fault) :
  method (enter from emptyState) = inl fault ->
  executeTx from method s = (Threw fault, s).
Proof. intros Hdry. unfold executeTx. rewrite Hdry. reflexivity. Qed.

Lemma executeTx_dry (from : PublicKey) (method : M unit) (s : State)
    (r : unit * ExecutionContext) :
  method (enter from emptyState) = inr r ->
  executeTx from method s = commitTx from method s.
Proof. intros Hdry. unfold executeTx. rewrite Hdry. reflexivity. Qed.

Lemma executeTx_succeeded (from : PublicKey) (method : M unit)
    (s s' : State) :
  executeTx from method s = (Succeeded, s') ->
  exists ctx : ExecutionContext,
    method (enter from s) = inr (tt, ctx) /\ status ctx = true
    /\ s' = mkState (pools ctx) (balances ctx).
Proof.
  unfold executeTx, commitTx.
  destruct (method (enter from emptyState)); [discriminate |].
  destruct (method (enter from s)) as [fault | [[] ctx]]; [discriminate |].
  destruct (status ctx) eqn:Hs; [| discriminate].
  intros [= <-]. exists ctx. auto.
Qed.

Section Lifecycle.
Context {P : Poseidon} {W : UIntWidth}.

Lemma createPool_run (tokenInId tokenOutId : TokenId)
    (tokenInAmount tokenOutAmount : Balance) (ctx : ExecutionContext) :
  XYK.createPool tokenInId tokenOutId tokenInAmount tokenOutAmount ctx
  = let key := PoolKey.fromTokenIdPair tokenInId tokenOutId in
    let c1 := after_assert (negb (tokenInId =? tokenOutId))
                (Some errors.tokensMatch) ctx in
    let c2 := after_assert (negb (bool_decide (is_Some (pools c1 !! key))))
                (Some errors.poolExists) c1 in
    let c3 := set_pools (<[key := XYK.defaultPoolValue]> (pools c2)) c2 in
    let creator := sender c3 in
    let c4 := after_transfer tokenInId creator key tokenInAmount c3 in
    let c5 := after_transfer tokenOutId creator key tokenOutAmount c4 in
    inr (tt, set_balances
               (credit (LPTokenId.fromTokenIdPair tokenInId tokenOutId)
                  creator tokenInAmount (balances c5)) c5).
Proof.
  unfold XYK.createPool, transaction_sender, mbind, M_bind, mret, M_ret.
  run_primitives. reflexivity.
Qed.

Lemma calculateTokenOutAmount_run (tokenInId tokenOutId : TokenId)
    (tokenInAmount : Balance) (ctx : ExecutionContext) :
  XYK.calculateTokenOutAmount tokenInId tokenOutId tokenInAmount ctx
  = let pool := PoolKey.fromTokenIdPair tokenInId tokenOutId in
    XYK.calculateTokenOutAmountFromReserves
      (balanceOf tokenInId pool (balances ctx))
      (balanceOf tokenOutId pool (balances ctx)) tokenInAmount ctx.
Proof. reflexivity. Qed.

Lemma calculateTokenInAmount_run (tokenInId tokenOutId : TokenId)
    (tokenOutAmount : Balance) (ctx : ExecutionContext) :
  XYK.calculateTokenInAmount tokenInId tokenOutId tokenOutAmount ctx
  = let pool := PoolKey.fromTokenIdPair tokenInId tokenOutId in
    XYK.calculateTokenInAmountFromReserves
      (balanceOf tokenInId pool (balances ctx))
      (balanceOf tokenOutId pool (balances ctx)) tokenOutAmount ctx.
Proof. reflexivity. Qed.

Lemma sell_run (tokenInId tokenOutId : TokenId)
    (tokenInAmount minTokenOutAmount : Balance) (ctx : ExecutionContext) :
  XYK.sell tokenInId tokenOutId tokenInAmount minTokenOutAmount ctx
  = let pool := PoolKey.fromTokenIdPair tokenInId tokenOutId in
    let c1 := after_assert (bool_decide (is_Some (pools ctx !! pool)))
                (Some errors.poolExists) ctx in
    match XYK.calculateTokenOutAmount tokenInId tokenOutId tokenInAmount c1
    with
    | inl fault => inl fault
    | inr (tokenOutAmount, c2) =>
        let c3 := after_assert
                    (Balance.greaterThanOrEqual tokenOutAmount
                       minTokenOutAmount)
                    (Some errors.tokenOutAmountTooLow) c2 in
        let c4 := after_transfer tokenInId (sender c3) pool tokenInAmount c3 in
        inr (tt, after_transfer tokenOutId pool (sender c4) tokenOutAmount c4)
    end.
Proof.
  unfold XYK.sell, XYK.assertPoolExists, transaction_sender,
    mbind, M_bind, mret, M_ret.
  run_primitives.
  destruct (XYK.calculateTokenOutAmount _ _ _ _) as [fault | [out c2]];
    [reflexivity |].
  run_primitives. reflexivity.
Qed.

Lemma buy_run (tokenInId tokenOutId : TokenId)
    (tokenOutAmount maxTokenInAmount : Balance) (ctx : ExecutionContext) :
  XYK.buy tokenInId tokenOutId tokenOutAmount maxTokenInAmount ctx
  = let pool := PoolKey.fromTokenIdPair tokenInId tokenOutId in
    let c1 := after_assert (bool_decide (is_Some (pools ctx !! pool)))
                (Some errors.poolExists) ctx in
    match XYK.calculateTokenInAmount tokenInId tokenOutId tokenOutAmount c1
    with
    | inl fault => inl fault
    | inr (tokenInAmount, c2) =>
        let c3 := after_assert
                    (Balance.lessThanOrEqual tokenInAmount maxTokenInAmount)
                    (Some errors.tokenInAmountTooHigh) c2 in
        let c4 := after_transfer tokenOutId pool (sender c3)
                    tokenOutAmount c3 in
        inr (tt, after_transfer tokenInId (sender c4) pool tokenInAmount c4)
    end.
Proof.
  unfold XYK.buy, XYK.assertPoolExists, transaction_sender,
    mbind, M_bind, mret, M_ret.
  run_primitives.
  destruct (XYK.calculateTokenInAmount _ _ _ _) as [fault | [amt c2]];
    [reflexivity |].
  run_primitives. reflexivity.
Qed.

(** *** The run over the empty state

    No reserve is recorded there: [createPool] and [buy] throw only on an
    amount out of range, [sell] also on the amount 0, which it divides
    by. *)

Lemma fits_zero : Balance.fits 0 = true.
Proof.
  apply fits_lt. pose proof (N.pow_nonzero 2 NUM_BITS). lia.
Qed.

Lemma fits_add_r (r x : N) :
  Balance.fits (r + x) = true -> Balance.fits x = true.
Proof. rewrite !fits_lt. lia. Qed.

Lemma balanceOf_empty (tokenId : TokenId) (address : PublicKey) :
  balanceOf tokenId address ∅ = 0.
Proof. unfold balanceOf. rewrite lookup_empty. reflexivity. Qed.

Lemma createPool_executeTx_dry (from : PublicKey)
    (tokenInId tokenOutId : TokenId)
    (tokenInAmount tokenOutAmount : Balance) (s : State) :
  executeTx from
    (XYK.createPool tokenInId tokenOutId tokenInAmount tokenOutAmount) s
  = commitTx from
      (XYK.createPool tokenInId tokenOutId tokenInAmount tokenOutAmount) s.
Proof.
  eapply executeTx_dry. rewrite createPool_run. cbv zeta. reflexivity.
Qed.

Lemma sell_executeTx_dry (from : PublicKey) (tokenInId tokenOutId : TokenId)
    (tokenInAmount minTokenOutAmount : Balance) (s : State) :
  executeTx from
    (XYK.sell tokenInId tokenOutId tokenInAmount minTokenOutAmount) s
  = if Balance.fits tokenInAmount then
      if tokenInAmount =? 0 then (Threw DivisionByZero, s)
      else commitTx from
             (XYK.sell tokenInId tokenOutId tokenInAmount minTokenOutAmount) s
    else (Threw RangeCheckFailed, s).
Proof.
  unfold executeTx.
  rewrite sell_run. cbv zeta. rewrite calculateTokenOutAmount_run. cbv zeta.
  rewrite balances_after_assert. cbn [balances enter emptyState st_balances].
  rewrite !balanceOf_empty, calculateTokenOutAmountFromReserves_eq.
  rewrite N.mul_0_l, N.add_0_l, fits_zero.
  destruct (Balance.fits tokenInAmount); [| reflexivity].
  destruct (tokenInAmount =? 0); reflexivity.
Qed.

Lemma buy_executeTx_dry (from : PublicKey) (tokenInId tokenOutId : TokenId)
    (tokenOutAmount maxTokenInAmount : Balance) (s : State) :
  executeTx from
    (XYK.buy tokenInId tokenOutId tokenOutAmount maxTokenInAmount) s
  = if Balance.fits tokenOutAmount then
      commitTx from
        (XYK.buy tokenInId tokenOutId tokenOutAmount maxTokenInAmount) s
    else (Threw RangeCheckFailed, s).
Proof.
  unfold executeTx.
  rewrite buy_run. cbv zeta. rewrite calculateTokenInAmount_run. cbv zeta.
  rewrite balances_after_assert. cbn [balances enter emptyState st_balances].
  rewrite !balanceOf_empty, calculateTokenInAmountFromReserves_eq.
  rewrite N.mul_0_l, N.add_0_l, fits_zero.
  destruct (Balance.fits tokenOutAmount); reflexivity.
Qed.

Lemma after_transfer_ok t f to n ctx :
  (n <=? balanceOf t f (balances ctx)) = true ->
  after_transfer t f to n ctx
  = set_balances (move t f to n (balances ctx)) ctx.
Proof. intros H. unfold after_transfer. rewrite H. reflexivity. Qed.

Lemma after_transfer_short t f to n ctx :
  (n <=? balanceOf t f (balances ctx)) = false ->
  after_transfer t f to n ctx
  = after_assert false (Some Balances.insufficientBalance) ctx.
Proof. intros H. unfold after_transfer. rewrite H. reflexivity. Qed.

(** The steps after a failed assertion keep its failure. *)
Ltac keep_failed := solve [auto 12 with failed_db].

(** A run that ends with the status set cannot have passed through a
    context that had failed. *)
Ltac absurd_failed m :=
  exfalso;
  match goal with
  | Hs : status ?c = true |- _ =>
      let Hf := fresh in
      assert (Hf : failed m c) by keep_failed;
      destruct Hf; congruence
  end.

(** What a committed [createPool] was run on and what it leaves. *)
Lemma createPool_succeeded (from : PublicKey) (tokenInId tokenOutId : TokenId)
    (tokenInAmount tokenOutAmount : Balance) (s s' : State) :
  executeTx from
    (XYK.createPool tokenInId tokenOutId tokenInAmount tokenOutAmount) s
  = (Succeeded, s') ->
  let pool := PoolKey.fromTokenIdPair tokenInId tokenOutId in
  let b1 := move tokenInId from pool tokenInAmount (st_balances s) in
  let b2 := move tokenOutId from pool tokenOutAmount b1 in
  tokenInId <> tokenOutId
  /\ st_pools s !! pool = None
  /\ tokenInAmount <= balanceOf tokenInId from (st_balances s)
  /\ tokenOutAmount <= balanceOf tokenOutId from b1
  /\ s' = mkState (<[pool := XYK.defaultPoolValue]> (st_pools s))
            (credit (LPTokenId.fromTokenIdPair tokenInId tokenOutId)
               from tokenInAmount b2).
Proof.
  intros Htx. apply executeTx_succeeded in Htx as (ctx & Hrun & Hs & ->).
  rewrite createPool_run in Hrun. cbv zeta in Hrun. injection Hrun as <-.
  cbv zeta.
  destruct (N.eqb_spec tokenInId tokenOutId) as [Heq | Hne];
    cbn [negb] in Hs |- *; [absurd_failed errors.tokensMatch |].
  rewrite !after_assert_true in Hs |- *. cbn [pools enter] in Hs |- *.
  destruct (st_pools s !! PoolKey.fromTokenIdPair tokenInId tokenOutId)
    as [marker |] eqn:Hpool.
  { rewrite bool_decide_eq_true_2 in Hs by eauto. cbn [negb] in Hs.
    absurd_failed errors.poolExists. }
  rewrite bool_decide_eq_false_2 in Hs |- * by (intros [? ?]; discriminate).
  cbn [negb] in Hs |- *. rewrite !after_assert_true in Hs |- *.
  cbn [sender balances set_pools enter] in Hs |- *.
  destruct (N.leb_spec tokenInAmount
              (balanceOf tokenInId from (st_balances s))) as [H1 | H1].
  2: { apply N.leb_gt in H1.
       rewrite (after_transfer_short tokenInId) in Hs by exact H1.
       absurd_failed Balances.insufficientBalance. }
  apply N.leb_le in H1.
  rewrite (after_transfer_ok tokenInId) in Hs |- * by exact H1.
  cbn [sender balances set_balances] in Hs |- *.
  set (b1 := move tokenInId from _ tokenInAmount (st_balances s)) in *.
  destruct (N.leb_spec tokenOutAmount (balanceOf tokenOutId from b1))
    as [H2 | H2].
  2: { apply N.leb_gt in H2.
       rewrite (after_transfer_short tokenOutId) in Hs by exact H2.
       absurd_failed Balances.insufficientBalance. }
  apply N.leb_le in H2.
  rewrite (after_transfer_ok tokenOutId) in Hs |- * by exact H2.
  cbn [pools balances set_balances].
  apply N.leb_le in H1, H2. repeat split; assumption || reflexivity.
Qed.

(** *** Reading balances after credits and debits *)

Lemma balanceOf_credit_eq t a n b :
  balanceOf t a (credit t a n b) = balanceOf t a b + n.
Proof. unfold credit, balanceOf at 1. rewrite lookup_insert_eq. reflexivity. Qed.

Lemma balanceOf_credit_ne t a n b t' a' :
  (t, a) <> (t', a') -> balanceOf t' a' (credit t a n b) = balanceOf t' a' b.
Proof.
  intros Hne. unfold credit, balanceOf at 1.
  rewrite lookup_insert_ne by exact Hne. reflexivity.
Qed.

Lemma balanceOf_debit_eq t a n b :
  balanceOf t a (debit t a n b) = balanceOf t a b - n.
Proof. unfold debit, balanceOf at 1. rewrite lookup_insert_eq. reflexivity. Qed.

Lemma balanceOf_debit_ne t a n b t' a' :
  (t, a) <> (t', a') -> balanceOf t' a' (debit t a n b) = balanceOf t' a' b.
Proof.
  intros Hne. unfold debit, balanceOf at 1.
  rewrite lookup_insert_ne by exact Hne. reflexivity.
Qed.

Ltac read_balances :=
  unfold move;
  repeat first [ rewrite balanceOf_credit_eq
               | rewrite balanceOf_debit_eq
               | rewrite balanceOf_credit_ne by congruence
               | rewrite balanceOf_debit_ne by congruence ].

(** C5. A committed [createPool] leaves the marker of the pool key
    inserted and the ledger as two transfers from the caller to the pool
    account ([amountInSeed] of [tokenInId], [amountOutSeed] of
    [tokenOutId]) followed by a mint of exactly [amountInSeed] of the LP
    token to the caller leave it. Read as balances, when the caller is not
    the pool account and the LP token is neither token of the pair: the
    caller's balances fall and the pool's rise by the seeds, and the
    caller's LP balance rises by [amountInSeed]. *)
Theorem createPool_effects (from : PublicKey) (tokenInId tokenOutId : TokenId)
    (amountInSeed amountOutSeed : Balance) (s s' : State) :
  executeTx from
    (XYK.createPool tokenInId tokenOutId amountInSeed amountOutSeed) s
  = (Succeeded, s') ->
  let pool := PoolKey.fromTokenIdPair tokenInId tokenOutId in
  let lp := LPTokenId.fromTokenIdPair tokenInId tokenOutId in
  let b := st_balances s in
  let b' := st_balances s' in
  st_pools s' = <[pool := XYK.defaultPoolValue]> (st_pools s)
  /\ b' = credit lp from amountInSeed
            (move tokenOutId from pool amountOutSeed
               (move tokenInId from pool amountInSeed b))
  /\ (from <> pool -> lp <> tokenInId -> lp <> tokenOutId ->
      balanceOf tokenInId from b' + amountInSeed = balanceOf tokenInId from b
      /\ balanceOf tokenInId pool b' = balanceOf tokenInId pool b + amountInSeed
      /\ balanceOf tokenOutId from b' + amountOutSeed
         = balanceOf tokenOutId from b
      /\ balanceOf tokenOutId pool b'
         = balanceOf tokenOutId pool b + amountOutSeed
      /\ balanceOf lp from b' = balanceOf lp from b + amountInSeed).
Proof.
  intros Htx.
  apply createPool_succeeded in Htx as (Hne & _ & H1 & H2 & ->).
  cbv zeta. cbn [st_pools st_balances].
  split; [reflexivity |]. split; [reflexivity |].
  intros Hacc Hlp1 Hlp2.
  revert H2. read_balances. intros H2.
  repeat split; lia.
Qed.

(** *** The price computations only read the context *)

Lemma calculateTokenOutAmount_ctx (tokenInId tokenOutId : TokenId)
    (tokenInAmount out : Balance) (ctx ctx' : ExecutionContext) :
  XYK.calculateTokenOutAmount tokenInId tokenOutId tokenInAmount ctx
  = inr (out, ctx') ->
  ctx' = ctx.
Proof.
  rewrite calculateTokenOutAmount_run. cbv zeta. intros H.
  apply calculateTokenOutAmountFromReserves_inv in H as (_ & _ & ->).
  reflexivity.
Qed.

Lemma calculateTokenInAmount_ctx (tokenInId tokenOutId : TokenId)
    (tokenOutAmount amt : Balance) (ctx ctx' : ExecutionContext) :
  XYK.calculateTokenInAmount tokenInId tokenOutId tokenOutAmount ctx
  = inr (amt, ctx') ->
  exists condition : bool, ctx' = after_assert condition None ctx.
Proof.
  rewrite calculateTokenInAmount_run. cbv zeta.
  rewrite calculateTokenInAmountFromReserves_eq.
  destruct (Balance.fits _); [| discriminate].
  destruct (Balance.fits _); [| discriminate].
  cbv zeta. intros [= _ <-].
  match goal with |- context [(0 <? ?d) && _] => exists (0 <? d) end.
  destruct (0 <? _); cbn [andb after_assert].
  - rewrite context_eta. reflexivity.
  - unfold fail_with. destruct (statusMessage ctx); reflexivity.
Qed.

(** *** Markers are never removed *)

Lemma executeTx_keeps_pools (from : PublicKey) (call : Call) (s : State)
    (key : PoolKey) :
  is_Some (st_pools s !! key) ->
  is_Some (st_pools (executeTx from (method call) s).2 !! key).
Proof.
  intros Hkey. unfold executeTx.
  destruct (method call (enter from emptyState)); [exact Hkey |].
  unfold commitTx.
  destruct (method call (enter from s)) as [fault | [[] ctx]] eqn:Hrun;
    [exact Hkey |].
  destruct (status ctx); [| exact Hkey]. cbn [snd st_pools].
  destruct call as [a b x y | a b x y | a b x y]; cbn [method] in Hrun.
  - rewrite createPool_run in Hrun. cbv zeta in Hrun. injection Hrun as <-.
    cbn [pools set_balances]. autorewrite with context_db.
    cbn [pools set_pools]. autorewrite with context_db. cbn [pools enter].
    apply lookup_insert_is_Some'. right. exact Hkey.
  - rewrite sell_run in Hrun. cbv zeta in Hrun.
    destruct (XYK.calculateTokenOutAmount _ _ _ _) as [| [out c2]] eqn:Hcalc;
      [discriminate |].
    apply calculateTokenOutAmount_ctx in Hcalc as ->.
    injection Hrun as <-. autorewrite with context_db. exact Hkey.
  - rewrite buy_run in Hrun. cbv zeta in Hrun.
    destruct (XYK.calculateTokenInAmount _ _ _ _) as [| [amt c2]] eqn:Hcalc;
      [discriminate |].
    apply calculateTokenInAmount_ctx in Hcalc as [c ->].
    injection Hrun as <-. autorewrite with context_db. exact Hkey.
Qed.

Lemma applyTxs_keeps_pools (txs : list (PublicKey * Call)) (s : State)
    (key : PoolKey) :
  is_Some (st_pools s !! key) ->
  is_Some (st_pools (applyTxs txs s) !! key).
Proof.
  revert s. induction txs as [| [from call] txs IH]; intros s Hkey.
  - exact Hkey.
  - cbn [applyTxs fold_left]. apply IH. unfold applyTx. cbn [fst snd].
    apply executeTx_keeps_pools. exact Hkey.
Qed.

(** *** Creation fails on equal tokens and on an existing pool *)

Lemma createPool_identical (from : PublicKey) (tokenId : TokenId)
    (tokenInAmount tokenOutAmount : Balance) (s : State) :
  executeTx from
    (XYK.createPool tokenId tokenId tokenInAmount tokenOutAmount) s
  = (Failed (Some errors.tokensMatch), s).
Proof.
  rewrite createPool_executeTx_dry.
  eapply commitTx_failed; [apply createPool_run |].
  cbv zeta. rewrite N.eqb_refl. cbn [negb].
  keep_failed.
Qed.

Lemma createPool_existing (from : PublicKey) (tokenInId tokenOutId : TokenId)
    (tokenInAmount tokenOutAmount : Balance) (s : State) :
  tokenInId <> tokenOutId ->
  is_Some (st_pools s !! PoolKey.fromTokenIdPair tokenInId tokenOutId) ->
  executeTx from
    (XYK.createPool tokenInId tokenOutId tokenInAmount tokenOutAmount) s
  = (Failed (Some errors.poolExists), s).
Proof.
  intros Hne Hkey. rewrite createPool_executeTx_dry.
  eapply commitTx_failed; [apply createPool_run |].
  cbv zeta.
  destruct (N.eqb_spec tokenInId tokenOutId); [contradiction |].
  cbn [negb]. rewrite !after_assert_true. cbn [pools enter].
  rewrite bool_decide_eq_true_2 by exact Hkey. cbn [negb].
  keep_failed.
Qed.

(** C6. [createPool] on a token paired with itself fails with the
    message of [errors.tokensMatch] (IdenticalTokens) and commits nothing;
    and once [createPool] for [a] and [b] has been committed, then after
    any further transactions a [createPool] for [a], [b] in either order,
    by anyone and with any amounts, fails with the message of
    [errors.poolExists] (PoolAlreadyExists) and commits nothing. *)
Theorem createPool_once (from : PublicKey) (a b : TokenId)
    (tokenInAmount tokenOutAmount : Balance) (s : State) :
  executeTx from (XYK.createPool a a tokenInAmount tokenOutAmount) s
  = (Failed (Some errors.tokensMatch), s)
  /\ forall s1 : State,
       executeTx from (XYK.createPool a b tokenInAmount tokenOutAmount) s
       = (Succeeded, s1) ->
       forall (txs : list (PublicKey * Call)) (from' : PublicKey)
              (x y : Balance),
         let s2 := applyTxs txs s1 in
         executeTx from' (XYK.createPool a b x y) s2
         = (Failed (Some errors.poolExists), s2)
         /\ executeTx from' (XYK.createPool b a x y) s2
            = (Failed (Some errors.poolExists), s2).
Proof.
  split; [apply createPool_identical |].
  intros s1 Htx txs from' x y s2.
  apply createPool_succeeded in Htx as (Hne & _ & _ & _ & ->).
  assert (Hkey : is_Some (st_pools s2 !! PoolKey.fromTokenIdPair a b)).
  { apply applyTxs_keeps_pools. cbn [st_pools].
    rewrite lookup_insert_eq. eauto. }
  split.
  - apply createPool_existing; assumption.
  - apply createPool_existing; [congruence |].
    rewrite (PoolKey_fromTokenIdPair_comm b a). exact Hkey.
Qed.

(** *** Swaps on a pair without a pool *)

Lemma sell_missing_pool (from : PublicKey) (tokenInId tokenOutId : TokenId)
    (tokenInAmount minTokenOutAmount : Balance) (s : State) :
  st_pools s !! PoolKey.fromTokenIdPair tokenInId tokenOutId = None ->
  executeTx from
    (XYK.sell tokenInId tokenOutId tokenInAmount minTokenOutAmount) s
  = (Failed (Some errors.poolExists), s)
  \/ exists fault : Fault,
       executeTx from
         (XYK.sell tokenInId tokenOutId tokenInAmount minTokenOutAmount) s
       = (Threw fault, s).
Proof.
  intros Hkey. rewrite sell_executeTx_dry.
  destruct (Balance.fits tokenInAmount); [| right; eauto].
  destruct (tokenInAmount =? 0); [right; eauto |].
  destruct (XYK.sell tokenInId tokenOutId tokenInAmount minTokenOutAmount
              (enter from s)) as [fault | [[] ctx]] eqn:Hrun.
  { right. exists fault. unfold commitTx. rewrite Hrun. reflexivity. }
  left. eapply commitTx_failed; [exact Hrun |].
  rewrite sell_run in Hrun. cbv zeta in Hrun. cbn [pools enter] in Hrun.
  rewrite bool_decide_eq_false_2 in Hrun
    by (rewrite Hkey; intros [? ?]; discriminate).
  destruct (XYK.calculateTokenOutAmount _ _ _ _) as [| [out c2]] eqn:Hcalc;
    [discriminate |].
  apply calculateTokenOutAmount_ctx in Hcalc as ->.
  injection Hrun as <-. keep_failed.
Qed.

Lemma buy_missing_pool (from : PublicKey) (tokenInId tokenOutId : TokenId)
    (tokenOutAmount maxTokenInAmount : Balance) (s : State) :
  st_pools s !! PoolKey.fromTokenIdPair tokenInId tokenOutId = None ->
  executeTx from
    (XYK.buy tokenInId tokenOutId tokenOutAmount maxTokenInAmount) s
  = (Failed (Some errors.poolExists), s)
  \/ exists fault : Fault,
       executeTx from
         (XYK.buy tokenInId tokenOutId tokenOutAmount maxTokenInAmount) s
       = (Threw fault, s).
Proof.
  intros Hkey. rewrite buy_executeTx_dry.
  destruct (Balance.fits tokenOutAmount); [| right; eauto].
  destruct (XYK.buy tokenInId tokenOutId tokenOutAmount maxTokenInAmount
              (enter from s)) as [fault | [[] ctx]] eqn:Hrun.
  { right. exists fault. unfold commitTx. rewrite Hrun. reflexivity. }
  left. eapply commitTx_failed; [exact Hrun |].
  rewrite buy_run in Hrun. cbv zeta in Hrun. cbn [pools enter] in Hrun.
  rewrite bool_decide_eq_false_2 in Hrun
    by (rewrite Hkey; intros [? ?]; discriminate).
  destruct (XYK.calculateTokenInAmount _ _ _ _) as [| [amt c2]] eqn:Hcalc;
    [discriminate |].
  apply calculateTokenInAmount_ctx in Hcalc as [c ->].
  injection Hrun as <-. keep_failed.
Qed.




End Lifecycle.

(** *** The lifecycle on the fixture *)

Lemma createPool_effects_witness :
  executeTx alice (XYK.createPool (P := toyPoseidon) 0 1 1000 2000) funded
  = (Succeeded, pooled)
  /\ st_pools pooled
     = <[PoolKey.fromTokenIdPair (P := toyPoseidon) 0 1
         := XYK.defaultPoolValue]> (st_pools funded)
  /\ balanceOf 0 alice (st_balances pooled) + 1000
     = balanceOf 0 alice (st_balances funded)
  /\ balanceOf (LPTokenId.fromTokenIdPair (P := toyPoseidon) 0 1) alice
       (st_balances pooled)
     = balanceOf (LPTokenId.fromTokenIdPair (P := toyPoseidon) 0 1) alice
         (st_balances funded) + 1000.
Proof.
  assert (Htx : executeTx alice
                  (XYK.createPool (P := toyPoseidon) 0 1 1000 2000) funded
                = (Succeeded, pooled)) by (vm_compute; reflexivity).
  destruct (createPool_effects (P := toyPoseidon)
              alice 0 1 1000 2000 funded pooled Htx) as (Hpools & _ & Hread).
  destruct Hread as (Hin & _ & _ & _ & Hlp);
    try (intros E; vm_compute in E; discriminate E).
  split; [exact Htx |]. split; [exact Hpools |]. split; [exact Hin | exact Hlp].
Defined.

Lemma createPool_once_witness :
  executeTx alice (XYK.createPool (P := toyPoseidon) 0 1 1000 2000) funded
  = (Succeeded, pooled)
  /\ let s2 := applyTxs (P := toyPoseidon) (W := w64)
                 [(alice, Sell 0 1 100 100)] pooled in
     executeTx alice (XYK.createPool (P := toyPoseidon) 1 0 5 5) s2
     = (Failed (Some errors.poolExists), s2).
Proof.
  assert (Htx : executeTx alice
                  (XYK.createPool (P := toyPoseidon) 0 1 1000 2000) funded
                = (Succeeded, pooled)) by (vm_compute; reflexivity).
  split; [exact Htx |].
  exact (proj2 (proj2 (createPool_once (P := toyPoseidon) (W := w64)
                         alice 0 1 1000 2000 funded)
                  pooled Htx [(alice, Sell 0 1 100 100)] alice 5 5)).
Defined.

(** C7. The code reports a swap on a pair without a pool with the message
    of a pool that exists already: on the funded state, where no pool has
    been created, [sell] and [buy] for the tokens 0 and 1 fail with
    [errors.poolExists], the message [createPool] gives for
    PoolAlreadyExists. *)
Theorem swap_without_pool_reports_poolExists :
  st_pools funded !! PoolKey.fromTokenIdPair (P := toyPoseidon) 0 1 = None
  /\ executeTx alice
       (XYK.sell (P := toyPoseidon) (W := w64) 0 1 100 0) funded
     = (Failed (Some errors.poolExists), funded)
  /\ executeTx alice
       (XYK.buy (P := toyPoseidon) (W := w64) 0 1 100 10000) funded
     = (Failed (Some errors.poolExists), funded)
  /\ errors.poolExists = "Pool already exists"%string.
Proof.
  split; [vm_compute; reflexivity |].
  split; [vm_compute; reflexivity |].
  split; [vm_compute; reflexivity | reflexivity].
Qed.



(** The test file, replayed: after the pool creation, selling 100 of
    token 0 for at least 100 brings alice 181 of token 1, and buying 200
    of token 1 then costs her 135 of token 0. *)
Lemma fixture_replay :
  let sold := applyTxs (P := toyPoseidon) (W := w64)
                [(alice, Sell 0 1 100 100)] pooled in
  let bought := applyTxs (P := toyPoseidon) (W := w64)
                  [(alice, Buy 0 1 200 10000)] sold in
  balanceOf 0 alice (st_balances pooled) = 10000 - 1000
  /\ balanceOf 1 alice (st_balances pooled) = 10000 - 2000
  /\ balanceOf 0 alice (st_balances sold)
     = balanceOf 0 alice (st_balances pooled) - 100
  /\ balanceOf 1 alice (st_balances sold)
     = balanceOf 1 alice (st_balances pooled) + 181
  /\ balanceOf 1 alice (st_balances bought)
     = balanceOf 1 alice (st_balances sold) + 200
  /\ balanceOf 0 alice (st_balances bought)
     = balanceOf 0 alice (st_balances sold) - 135.
Proof. vm_compute. repeat split. Qed.

(** * Further properties of the module *)

(** ** The canonical pair *)

Lemma TokenPair_from_max_min (a b : TokenId) :
  TokenPair.from a b = mkTokenPair (N.max a b) (N.min a b).
Proof.
  unfold TokenPair.from, Provable_if. destruct (N.ltb_spec b a).
  - rewrite N.max_l, N.min_r by lia. reflexivity.
  - rewrite N.max_r, N.min_l by lia. reflexivity.
Qed.

Lemma TokenPair_from_eq_iff (a b c d : TokenId) :
  TokenPair.from a b = TokenPair.from c d
  <-> (a = c /\ b = d) \/ (a = d /\ b = c).
Proof.
  rewrite !TokenPair_from_max_min. split.
  - intros [= Hx Hn]. lia.
  - intros [[-> ->] | [-> ->]]; [reflexivity |].
    rewrite N.max_comm, N.min_comm. reflexivity.
Qed.

(** X1. [TokenPair.from] stores the larger identifier first, whatever the
    order of its arguments, and two calls give the same pair exactly when
    their arguments are the same two identifiers, in either order. *)
Theorem TokenPair_from_canonical (a b c d : TokenId) :
  TokenPair.from a b = mkTokenPair (N.max a b) (N.min a b)
  /\ tokenOutId (TokenPair.from a b) <= tokenInId (TokenPair.from a b)
  /\ (TokenPair.from a b = TokenPair.from c d
      <-> (a = c /\ b = d) \/ (a = d /\ b = c)).
Proof.
  split; [apply TokenPair_from_max_min |]. split.
  - rewrite TokenPair_from_max_min. cbn. lia.
  - apply TokenPair_from_eq_iff.
Qed.

(** ** Bounds and rounding of the two price functions *)

Section PriceBounds.
Context {W : UIntWidth}.

(** X3. Whenever [calculateTokenOutAmountFromReserves] returns, the
    output is at most [reserveOut], its rate is at most the rate of the
    reserves after the input ([out * (reserveIn + amountIn) <=
    reserveOut * amountIn]), and with both reserves positive it is
    strictly below [reserveOut]: a sale never empties the pool. *)
Theorem calculateTokenOutAmountFromReserves_bounds
    (reserveIn reserveOut amountIn out : Balance)
    (ctx ctx' : ExecutionContext) :
  XYK.calculateTokenOutAmountFromReserves reserveIn reserveOut amountIn ctx
  = inr (out, ctx') ->
  out <= reserveOut
  /\ out * (reserveIn + amountIn) <= reserveOut * amountIn
  /\ (0 < reserveIn -> 0 < reserveOut -> out < reserveOut).
Proof.
  intros H.
  apply calculateTokenOutAmountFromReserves_inv in H as (Hpos & -> & _).
  pose proof (N.Div0.mul_div_le (reserveOut * amountIn)
                (reserveIn + amountIn)) as Hfloor.
  split; [| split].
  - apply N.Div0.div_le_upper_bound. nia.
  - lia.
  - intros Hin Hout. apply N.Div0.div_lt_upper_bound. nia.
Qed.

(** X4. Whenever [calculateTokenOutAmountFromReserves] returns, the
    product of the reserves after the swap is at least the product
    before it. *)
Theorem calculateTokenOutAmountFromReserves_product
    (reserveIn reserveOut amountIn out : Balance)
    (ctx ctx' : ExecutionContext) :
  XYK.calculateTokenOutAmountFromReserves reserveIn reserveOut amountIn ctx
  = inr (out, ctx') ->
  reserveIn * reserveOut <= (reserveIn + amountIn) * (reserveOut - out).
Proof.
  intros H.
  apply calculateTokenOutAmountFromReserves_inv in H as (Hpos & -> & _).
  pose proof (N.Div0.mul_div_le (reserveOut * amountIn)
                (reserveIn + amountIn)) as Hfloor.
  set (q := reserveOut * amountIn / (reserveIn + amountIn)) in *.
  assert (Hq : q <= reserveOut) by (apply N.Div0.div_le_upper_bound; nia).
  rewrite N.mul_sub_distr_l. nia.
Qed.

(** X5. For [amountOut < reserveOut], the input that
    [calculateTokenInAmountFromReserves] returns is rounded down:
    [amountIn * (reserveOut - amountOut) <= reserveIn * amountOut <
    (amountIn + 1) * (reserveOut - amountOut)]. The product of the
    reserves after the swap is therefore at most the product before it,
    and an amount with [reserveIn * amountOut < reserveOut - amountOut]
    costs nothing. *)
Theorem calculateTokenInAmountFromReserves_rounds_down
    (reserveIn reserveOut amountOut amountIn : Balance)
    (ctx ctx' : ExecutionContext) :
  amountOut < reserveOut ->
  XYK.calculateTokenInAmountFromReserves reserveIn reserveOut amountOut ctx
  = inr (amountIn, ctx') ->
  amountIn * (reserveOut - amountOut) <= reserveIn * amountOut
  /\ reserveIn * amountOut < (amountIn + 1) * (reserveOut - amountOut)
  /\ (reserveIn + amountIn) * (reserveOut - amountOut)
     <= reserveIn * reserveOut
  /\ (reserveIn * amountOut < reserveOut - amountOut -> amountIn = 0).
Proof.
  intros Hlt. rewrite calculateTokenInAmountFromReserves_eq.
  destruct (Balance.fits _); [| discriminate].
  destruct (Balance.fits _); [| discriminate].
  cbv zeta.
  destruct (N.leb_spec amountOut reserveOut); [| lia].
  destruct (N.ltb_spec 0 (reserveOut - amountOut)); [| lia].
  intros [= <- _].
  set (d := reserveOut - amountOut) in *.
  pose proof (N.Div0.mul_div_le (reserveIn * amountOut) d) as Hfloor.
  pose proof (N.mul_succ_div_gt (reserveIn * amountOut) d ltac:(lia)) as Hceil.
  set (q := reserveIn * amountOut / d) in *.
  assert (Hr : reserveOut = d + amountOut) by lia.
  split; [lia |]. split; [lia |]. split.
  - rewrite Hr. nia.
  - intros Hsmall. apply N.div_small in Hsmall. exact Hsmall.
Qed.

End PriceBounds.

(** ** Outcomes of the three methods *)

Section Outcomes.
Context {P : Poseidon} {W : UIntWidth}.

Ltac keep_failed := solve [auto 12 with failed_db].

Lemma commitTx_committed (from : PublicKey) (method : M unit) (s : State)
    (ctx : ExecutionContext) :
  method (enter from s) = inr (tt, ctx) -> status ctx = true ->
  commitTx from method s
  = (Succeeded, mkState (pools ctx) (balances ctx)).
Proof.
  intros Hrun Hs. unfold commitTx. rewrite Hrun, Hs. reflexivity.
Qed.

Lemma commitTx_threw (from : PublicKey) (method : M unit) (s : State)
    (fault : Fault) :
  method (enter from s) = inl fault ->
  commitTx from method s = (Threw fault, s).
Proof. intros Hrun. unfold commitTx. rewrite Hrun. reflexivity. Qed.

(** A transfer never lowers what its destination holds. *)
Lemma balanceOf_move_to_ge t f to n t' b :
  n <= balanceOf t f b ->
  balanceOf t' to b <= balanceOf t' to (move t f to n b).
Proof.
  intros Hn. unfold move.
  destruct (decide (t = t')) as [<- | Hne].
  - rewrite balanceOf_credit_eq.
    destruct (decide (f = to)) as [<- | Hft].
    + rewrite balanceOf_debit_eq. lia.
    + rewrite balanceOf_debit_ne by congruence. lia.
  - rewrite balanceOf_credit_ne, balanceOf_debit_ne by congruence. lia.
Qed.

Lemma calculateTokenOutAmountFromReserves_any_ctx
    (reserveIn reserveOut amountIn : Balance) (ctx c : ExecutionContext) :
  XYK.calculateTokenOutAmountFromReserves reserveIn reserveOut amountIn c
  = match XYK.calculateTokenOutAmountFromReserves
            reserveIn reserveOut amountIn ctx with
    | inl fault => inl fault
    | inr (out, _) => inr (out, c)
    end.
Proof.
  rewrite !calculateTokenOutAmountFromReserves_eq.
  destruct (Balance.fits _); [| reflexivity].
  destruct (Balance.fits _); [| reflexivity].
  destruct (_ =? 0); reflexivity.
Qed.

Lemma calculateTokenOutAmountFromReserves_le_reserve
    (reserveIn reserveOut amountIn out : Balance)
    (ctx ctx' : ExecutionContext) :
  XYK.calculateTokenOutAmountFromReserves reserveIn reserveOut amountIn ctx
  = inr (out, ctx') ->
  out <= reserveOut.
Proof.
  intros H.
  apply calculateTokenOutAmountFromReserves_inv in H as (Hpos & -> & _).
  apply N.Div0.div_le_upper_bound. nia.
Qed.

(** The outcome of the run of [sell] over the committed state, from the
    price computed on the reserves. *)
Lemma sell_commitTx (from : PublicKey) (tokenInId tokenOutId : TokenId)
    (tokenInAmount minTokenOutAmount : Balance) (s : State) :
  let pool := PoolKey.fromTokenIdPair tokenInId tokenOutId in
  let b := st_balances s in
  commitTx from
    (XYK.sell tokenInId tokenOutId tokenInAmount minTokenOutAmount) s
  = match XYK.calculateTokenOutAmountFromReserves
            (balanceOf tokenInId pool b) (balanceOf tokenOutId pool b)
            tokenInAmount (enter from s) with
    | inl fault => (Threw fault, s)
    | inr (out, _) =>
        if bool_decide (is_Some (st_pools s !! pool)) then
          if minTokenOutAmount <=? out then
            if tokenInAmount <=? balanceOf tokenInId from b then
              (Succeeded,
               mkState (st_pools s)
                 (move tokenOutId pool from out
                    (move tokenInId from pool tokenInAmount b)))
            else (Failed (Some Balances.insufficientBalance), s)
          else (Failed (Some errors.tokenOutAmountTooLow), s)
        else (Failed (Some errors.poolExists), s)
    end.
Proof.
  cbv zeta.
  set (pool := PoolKey.fromTokenIdPair tokenInId tokenOutId).
  set (b := st_balances s).
  set (marker := bool_decide (is_Some (st_pools s !! pool))).
  assert (Hrun :
    XYK.sell tokenInId tokenOutId tokenInAmount minTokenOutAmount
      (enter from s)
    = match XYK.calculateTokenOutAmountFromReserves
              (balanceOf tokenInId pool b) (balanceOf tokenOutId pool b)
              tokenInAmount (enter from s) with
      | inl fault => inl fault
      | inr (out, _) =>
          let c1 := after_assert marker (Some errors.poolExists)
                      (enter from s) in
          let c3 := after_assert (minTokenOutAmount <=? out)
                      (Some errors.tokenOutAmountTooLow) c1 in
          let c4 := after_transfer tokenInId from pool tokenInAmount c3 in
          inr (tt, after_transfer tokenOutId pool from out c4)
      end).
  { rewrite sell_run. cbv zeta.
    rewrite calculateTokenOutAmount_run. cbv zeta.
    rewrite balances_after_assert.
    rewrite (calculateTokenOutAmountFromReserves_any_ctx _ _ _ (enter from s)).
    cbn [pools balances enter]. fold pool b marker.
    destruct (XYK.calculateTokenOutAmountFromReserves _ _ _ _)
      as [fault | [out c]]; [reflexivity |].
    rewrite !sender_after_transfer, !sender_after_assert. reflexivity. }
  destruct (XYK.calculateTokenOutAmountFromReserves _ _ _ _)
    as [fault | [out c]] eqn:Hcalc.
  { apply commitTx_threw. exact Hrun. }
  apply calculateTokenOutAmountFromReserves_le_reserve in Hcalc as Hout.
  cbv zeta in Hrun.
  destruct marker.
  2: { eapply commitTx_failed; [exact Hrun |]. keep_failed. }
  rewrite after_assert_true in Hrun.
  destruct (minTokenOutAmount <=? out).
  2: { eapply commitTx_failed; [exact Hrun |]. keep_failed. }
  rewrite after_assert_true in Hrun.
  destruct (tokenInAmount <=? balanceOf tokenInId from b) eqn:Hfunds.
  2: { eapply commitTx_failed; [exact Hrun |].
       rewrite (after_transfer_short tokenInId) by exact Hfunds.
       keep_failed. }
  rewrite (after_transfer_ok tokenInId) in Hrun by exact Hfunds.
  rewrite (after_transfer_ok tokenOutId) in Hrun.
  - rewrite (commitTx_committed _ _ _ _ Hrun) by reflexivity. reflexivity.
  - cbn [balances set_balances enter]. apply N.leb_le.
    apply N.le_trans with (balanceOf tokenOutId pool b); [exact Hout |].
    apply balanceOf_move_to_ge. apply N.leb_le. exact Hfunds.
Qed.

Lemma fits_add_r_false (r x : N) :
  Balance.fits x = false -> Balance.fits (r + x) = false.
Proof.
  intros Hx. destruct (Balance.fits (r + x)) eqn:Hsum; [| reflexivity].
  apply fits_add_r in Hsum. congruence.
Qed.

(** X7. The outcome of a [sell] transaction is decided, in this order,
    by: the amount 0 (a division by zero in the run over the empty state,
    whatever the reserves); the range checks of the price computation (a
    fault, also when the pair has no pool); the marker of the pool
    ([errors.poolExists] when it is missing); the minimum output
    ([errors.tokenOutAmountTooLow]); the seller's balance of [tokenInId]
    (InsufficientBalance). Otherwise the sale is committed: the input moves
    from the seller to the pool account and floor(reserveOut * amountIn /
    (reserveIn + amountIn)) moves back; the pool's own balance never makes
    a sale fail. *)
Theorem sell_outcome (from : PublicKey) (tokenInId tokenOutId : TokenId)
    (tokenInAmount minTokenOutAmount : Balance) (s : State) :
  let pool := PoolKey.fromTokenIdPair tokenInId tokenOutId in
  let b := st_balances s in
  let reserveIn := balanceOf tokenInId pool b in
  let reserveOut := balanceOf tokenOutId pool b in
  let out := reserveOut * tokenInAmount / (reserveIn + tokenInAmount) in
  executeTx from
    (XYK.sell tokenInId tokenOutId tokenInAmount minTokenOutAmount) s
  = if tokenInAmount =? 0 then (Threw DivisionByZero, s)
    else if negb (Balance.fits (reserveOut * tokenInAmount)
                  && Balance.fits (reserveIn + tokenInAmount))
    then (Threw RangeCheckFailed, s)
    else if negb (bool_decide (is_Some (st_pools s !! pool)))
    then (Failed (Some errors.poolExists), s)
    else if out <? minTokenOutAmount
    then (Failed (Some errors.tokenOutAmountTooLow), s)
    else if balanceOf tokenInId from b <? tokenInAmount
    then (Failed (Some Balances.insufficientBalance), s)
    else (Succeeded,
          mkState (st_pools s)
            (move tokenOutId pool from out
               (move tokenInId from pool tokenInAmount b))).
Proof.
  cbv zeta. rewrite sell_executeTx_dry.
  destruct (N.eqb_spec tokenInAmount 0) as [-> | Hpos];
    [rewrite fits_zero; reflexivity |].
  destruct (Balance.fits tokenInAmount) eqn:Hfits.
  2: { rewrite (fits_add_r_false _ _ Hfits), andb_false_r. reflexivity. }
  clear Hfits. rewrite sell_commitTx. cbv zeta.
  rewrite calculateTokenOutAmountFromReserves_eq.
  destruct (Balance.fits _); [| reflexivity].
  destruct (Balance.fits _); [| reflexivity].
  cbn [andb negb].
  destruct (N.eqb_spec (balanceOf tokenInId
                          (PoolKey.fromTokenIdPair tokenInId tokenOutId)
                          (st_balances s) + tokenInAmount) 0); [lia |].
  destruct (bool_decide _); [| reflexivity]. cbn [negb].
  rewrite (N.ltb_antisym minTokenOutAmount).
  destruct (minTokenOutAmount <=? _); [| reflexivity]. cbn [negb].
  rewrite (N.ltb_antisym tokenInAmount).
  destruct (tokenInAmount <=? _); reflexivity.
Qed.

(** What a committed [sell] was run on and what it leaves. *)
Lemma sell_succeeded (from : PublicKey) (tokenInId tokenOutId : TokenId)
    (tokenInAmount minTokenOutAmount : Balance) (s s' : State) :
  executeTx from
    (XYK.sell tokenInId tokenOutId tokenInAmount minTokenOutAmount) s
  = (Succeeded, s') ->
  let pool := PoolKey.fromTokenIdPair tokenInId tokenOutId in
  let b := st_balances s in
  let reserveIn := balanceOf tokenInId pool b in
  let reserveOut := balanceOf tokenOutId pool b in
  let out := reserveOut * tokenInAmount / (reserveIn + tokenInAmount) in
  is_Some (st_pools s !! pool)
  /\ 0 < reserveIn + tokenInAmount
  /\ out <= reserveOut
  /\ minTokenOutAmount <= out
  /\ tokenInAmount <= balanceOf tokenInId from b
  /\ s' = mkState (st_pools s)
            (move tokenOutId pool from out
               (move tokenInId from pool tokenInAmount b)).
Proof.
  cbv zeta. rewrite sell_executeTx_dry.
  destruct (Balance.fits tokenInAmount); [| discriminate].
  destruct (tokenInAmount =? 0); [discriminate |].
  rewrite sell_commitTx. cbv zeta.
  destruct (XYK.calculateTokenOutAmountFromReserves _ _ _ _)
    as [fault | [out c]] eqn:Hcalc; [discriminate |].
  pose proof (calculateTokenOutAmountFromReserves_le_reserve
                _ _ _ _ _ _ Hcalc) as Hle.
  apply calculateTokenOutAmountFromReserves_inv in Hcalc as (Hpos & -> & _).
  destruct (bool_decide_reflect
              (is_Some (st_pools s
                        !! PoolKey.fromTokenIdPair tokenInId tokenOutId)))
    as [Hkey | _]; [| discriminate].
  destruct (N.leb_spec minTokenOutAmount
              (balanceOf tokenOutId
                 (PoolKey.fromTokenIdPair tokenInId tokenOutId)
                 (st_balances s) * tokenInAmount
               / (balanceOf tokenInId
                    (PoolKey.fromTokenIdPair tokenInId tokenOutId)
                    (st_balances s) + tokenInAmount)));
    [| discriminate].
  destruct (N.leb_spec tokenInAmount
              (balanceOf tokenInId from (st_balances s)));
    [| discriminate].
  intros [= <-]. auto 10.
Qed.

Ltac read_balances :=
  unfold move;
  repeat first [ rewrite balanceOf_credit_eq
               | rewrite balanceOf_debit_eq
               | rewrite balanceOf_credit_ne by congruence
               | rewrite balanceOf_debit_ne by congruence ].

(** X12. A committed [sell] between different tokens, by a seller other
    than the pool account, changes four balances and nothing else: the
    seller pays [amountIn] and the pool receives it, the pool pays
    [out = floor(reserveOut * amountIn / (reserveIn + amountIn))] and the
    seller receives it. Every other balance and every pool marker is as
    before, and the product of the pool's two reserves does not fall. *)
Theorem sell_conserves (from : PublicKey) (tokenInId tokenOutId : TokenId)
    (amountIn minTokenOutAmount : Balance) (s s' : State) :
  executeTx from (XYK.sell tokenInId tokenOutId amountIn minTokenOutAmount) s
  = (Succeeded, s') ->
  tokenInId <> tokenOutId ->
  from <> PoolKey.fromTokenIdPair tokenInId tokenOutId ->
  let pool := PoolKey.fromTokenIdPair tokenInId tokenOutId in
  let b := st_balances s in
  let b' := st_balances s' in
  let out := balanceOf tokenOutId pool b * amountIn
             / (balanceOf tokenInId pool b + amountIn) in
  st_pools s' = st_pools s
  /\ balanceOf tokenInId from b' + amountIn = balanceOf tokenInId from b
  /\ balanceOf tokenInId pool b' = balanceOf tokenInId pool b + amountIn
  /\ balanceOf tokenOutId pool b' + out = balanceOf tokenOutId pool b
  /\ balanceOf tokenOutId from b' = balanceOf tokenOutId from b + out
  /\ (forall (t : TokenId) (account : PublicKey),
        (t, account) <> (tokenInId, from) ->
        (t, account) <> (tokenInId, pool) ->
        (t, account) <> (tokenOutId, pool) ->
        (t, account) <> (tokenOutId, from) ->
        balanceOf t account b' = balanceOf t account b)
  /\ balanceOf tokenInId pool b * balanceOf tokenOutId pool b
     <= balanceOf tokenInId pool b' * balanceOf tokenOutId pool b'.
Proof.
  intros Htx Htok Hacc.
  apply sell_succeeded in Htx as (_ & Hpos & Hle & _ & Hfunds & ->).
  cbv zeta in *. cbn [st_pools st_balances].
  set (pool := PoolKey.fromTokenIdPair tokenInId tokenOutId) in *.
  set (b := st_balances s) in *.
  set (rIn := balanceOf tokenInId pool b) in *.
  set (rOut := balanceOf tokenOutId pool b) in *.
  pose proof (N.Div0.mul_div_le (rOut * amountIn) (rIn + amountIn)) as Hfloor.
  set (out := rOut * amountIn / (rIn + amountIn)) in *.
  split; [reflexivity |].
  assert (H1 : balanceOf tokenInId pool
                 (move tokenOutId pool from out
                    (move tokenInId from pool amountIn b))
               = rIn + amountIn).
  { read_balances. reflexivity. }
  assert (H2 : balanceOf tokenOutId pool
                 (move tokenOutId pool from out
                    (move tokenInId from pool amountIn b))
               = rOut - out).
  { read_balances. reflexivity. }
  split; [read_balances; lia |].
  split; [exact H1 |].
  split; [rewrite H2; lia |].
  split; [read_balances; reflexivity |].
  split.
  - intros t account Ha Hb Hc Hd. change PoolKey with PublicKey in *.
    read_balances. reflexivity.
  - rewrite H1, H2. rewrite N.mul_sub_distr_l. nia.
Qed.

(** X10. A [sell] of amount 0 for a pair whose pool account holds none of
    [tokenInId] divides by zero: the transaction ends in a fault, whatever
    the minimum asked, whoever signs, and whether or not the pool
    exists. *)
Theorem sell_nothing_into_empty_reserve (from : PublicKey)
    (tokenInId tokenOutId : TokenId) (minTokenOutAmount : Balance)
    (s : State) :
  balanceOf tokenInId (PoolKey.fromTokenIdPair tokenInId tokenOutId)
    (st_balances s) = 0 ->
  executeTx from (XYK.sell tokenInId tokenOutId 0 minTokenOutAmount) s
  = (Threw DivisionByZero, s).
Proof.
  intros Hempty. rewrite sell_executeTx_dry, fits_zero. reflexivity.
Qed.

(** X6. The outcome of a [createPool] transaction is decided, in this
    order, by: equal tokens ([errors.tokensMatch]); the marker of the pool
    ([errors.poolExists] when it is there); the creator's balances of the
    two seeds (InsufficientBalance, and no marker is left behind).
    Otherwise the pool is committed; no minimum is asked of the seeds. *)
Theorem createPool_outcome (from : PublicKey) (tokenInId tokenOutId : TokenId)
    (tokenInAmount tokenOutAmount : Balance) (s : State) :
  let pool := PoolKey.fromTokenIdPair tokenInId tokenOutId in
  let b := st_balances s in
  let b1 := move tokenInId from pool tokenInAmount b in
  executeTx from
    (XYK.createPool tokenInId tokenOutId tokenInAmount tokenOutAmount) s
  = if tokenInId =? tokenOutId then (Failed (Some errors.tokensMatch), s)
    else if bool_decide (is_Some (st_pools s !! pool))
    then (Failed (Some errors.poolExists), s)
    else if (tokenInAmount <=? balanceOf tokenInId from b)
            && (tokenOutAmount <=? balanceOf tokenOutId from b1)
    then (Succeeded,
          mkState (<[pool := XYK.defaultPoolValue]> (st_pools s))
            (credit (LPTokenId.fromTokenIdPair tokenInId tokenOutId)
               from tokenInAmount
               (move tokenOutId from pool tokenOutAmount b1)))
    else (Failed (Some Balances.insufficientBalance), s).
Proof.
  cbv zeta.
  destruct (N.eqb_spec tokenInId tokenOutId) as [<- | Hne];
    [apply createPool_identical |].
  destruct (bool_decide_reflect
              (is_Some (st_pools s
                        !! PoolKey.fromTokenIdPair tokenInId tokenOutId)))
    as [Hkey | Hkey]; [apply createPool_existing; assumption |].
  rewrite createPool_executeTx_dry.
  assert (Hrun := createPool_run tokenInId tokenOutId
                    tokenInAmount tokenOutAmount (enter from s)).
  cbv zeta in Hrun.
  destruct (N.eqb_spec tokenInId tokenOutId); [contradiction |].
  cbn [negb] in Hrun. rewrite !after_assert_true in Hrun.
  cbn [pools enter] in Hrun.
  rewrite bool_decide_eq_false_2 in Hrun by exact Hkey.
  cbn [negb] in Hrun. rewrite !after_assert_true in Hrun.
  cbn [sender balances set_pools enter] in Hrun.
  destruct (tokenInAmount <=? balanceOf tokenInId from (st_balances s))
    eqn:H1; cbn [andb].
  2: { eapply commitTx_failed; [exact Hrun |].
       rewrite (after_transfer_short tokenInId) by exact H1. keep_failed. }
  rewrite (after_transfer_ok tokenInId) in Hrun by exact H1.
  cbn [sender balances set_balances] in Hrun.
  destruct (tokenOutAmount <=? _) eqn:H2.
  2: { eapply commitTx_failed; [exact Hrun |].
       rewrite (after_transfer_short tokenOutId) by exact H2. keep_failed. }
  rewrite (after_transfer_ok tokenOutId) in Hrun by exact H2.
  rewrite (commitTx_committed _ _ _ _ Hrun) by reflexivity. reflexivity.
Qed.

(** *** Purchases *)

Lemma calculateTokenInAmountFromReserves_run
    (reserveIn reserveOut amountOut : Balance) (ctx : ExecutionContext) :
  XYK.calculateTokenInAmountFromReserves reserveIn reserveOut amountOut ctx
  = if Balance.fits (reserveOut + amountOut)
       && Balance.fits (reserveIn * amountOut)
    then
      let denominator :=
        if amountOut <=? reserveOut
        then reserveOut - amountOut else reserveOut in
      inr (reserveIn * amountOut
             / (if 0 <? denominator then denominator else 1),
           after_assert (0 <? denominator) None ctx)
    else inl RangeCheckFailed.
Proof.
  rewrite calculateTokenInAmountFromReserves_eq.
  destruct (Balance.fits _); [| reflexivity].
  destruct (Balance.fits _); [| reflexivity].
  cbv zeta. cbn [andb].
  destruct (0 <? _); cbn [andb after_assert].
  - rewrite context_eta. reflexivity.
  - unfold fail_with. destruct (statusMessage ctx); reflexivity.
Qed.

(** The context a [buy] ends in, when the price computation returns. *)
Lemma buy_final (from : PublicKey) (tokenInId tokenOutId : TokenId)
    (tokenOutAmount maxTokenInAmount : Balance) (s : State) :
  let pool := PoolKey.fromTokenIdPair tokenInId tokenOutId in
  let b := st_balances s in
  let reserveIn := balanceOf tokenInId pool b in
  let reserveOut := balanceOf tokenOutId pool b in
  let denominator :=
    if tokenOutAmount <=? reserveOut
    then reserveOut - tokenOutAmount else reserveOut in
  let amountIn := reserveIn * tokenOutAmount
                  / (if 0 <? denominator then denominator else 1) in
  XYK.buy tokenInId tokenOutId tokenOutAmount maxTokenInAmount (enter from s)
  = if Balance.fits (reserveOut + tokenOutAmount)
       && Balance.fits (reserveIn * tokenOutAmount)
    then
      let c1 := after_assert (bool_decide (is_Some (st_pools s !! pool)))
                  (Some errors.poolExists) (enter from s) in
      let c2 := after_assert (0 <? denominator) None c1 in
      let c3 := after_assert (amountIn <=? maxTokenInAmount)
                  (Some errors.tokenInAmountTooHigh) c2 in
      let c4 := after_transfer tokenOutId pool from tokenOutAmount c3 in
      inr (tt, after_transfer tokenInId from pool amountIn c4)
    else inl RangeCheckFailed.
Proof.
  cbv zeta. rewrite buy_run. cbv zeta.
  rewrite calculateTokenInAmount_run. cbv zeta.
  rewrite balances_after_assert.
  rewrite calculateTokenInAmountFromReserves_run.
  cbn [pools balances enter].
  destruct (Balance.fits _ && Balance.fits _); [| reflexivity].
  cbv zeta.
  rewrite !sender_after_transfer, !sender_after_assert. reflexivity.
Qed.

Lemma status_true_after_assert c m ctx :
  status (after_assert c m ctx) = true -> c = true /\ status ctx = true.
Proof. rewrite status_after_assert. apply andb_true_iff. Qed.

Lemma status_true_after_transfer t f to n ctx :
  status (after_transfer t f to n ctx) = true ->
  (n <=? balanceOf t f (balances ctx)) = true /\ status ctx = true.
Proof. rewrite status_after_transfer. apply andb_true_iff. Qed.

(** What a committed [buy] was run on and what it leaves. *)
Lemma buy_succeeded (from : PublicKey) (tokenInId tokenOutId : TokenId)
    (tokenOutAmount maxTokenInAmount : Balance) (s s' : State) :
  executeTx from
    (XYK.buy tokenInId tokenOutId tokenOutAmount maxTokenInAmount) s
  = (Succeeded, s') ->
  let pool := PoolKey.fromTokenIdPair tokenInId tokenOutId in
  let b := st_balances s in
  let reserveIn := balanceOf tokenInId pool b in
  let reserveOut := balanceOf tokenOutId pool b in
  let amountIn := reserveIn * tokenOutAmount / (reserveOut - tokenOutAmount) in
  let b1 := move tokenOutId pool from tokenOutAmount b in
  is_Some (st_pools s !! pool)
  /\ tokenOutAmount < reserveOut
  /\ reserveOut + tokenOutAmount < 2 ^ NUM_BITS
  /\ reserveIn * tokenOutAmount < 2 ^ NUM_BITS
  /\ amountIn <= maxTokenInAmount
  /\ amountIn <= balanceOf tokenInId from b1
  /\ s' = mkState (st_pools s) (move tokenInId from pool amountIn b1).
Proof.
  intros Htx. apply executeTx_succeeded in Htx as (ctx & Hrun & Hs & ->).
  rewrite buy_final in Hrun. cbv zeta in Hrun |- *.
  destruct (Balance.fits (_ + _)) eqn:Hpad; [| discriminate].
  destruct (Balance.fits (_ * _)) eqn:Hnum; [| discriminate].
  cbn [andb] in Hrun. injection Hrun as <-.
  apply fits_lt in Hpad. apply fits_lt in Hnum.
  apply status_true_after_transfer in Hs as [H5 Hs].
  apply status_true_after_transfer in Hs as [H4 Hs].
  apply status_true_after_assert in Hs as [H3 Hs].
  apply status_true_after_assert in Hs as [H2 Hs].
  apply status_true_after_assert in Hs as [H1 _].
  autorewrite with context_db in H4. cbn [balances enter] in H4.
  rewrite H4 in H2, H3, H5 |- *. cbv beta iota in H2, H3, H5 |- *.
  rewrite H2 in H3, H5 |- *. cbv beta iota in H3, H5 |- *.
  rewrite H3 in H5 |- *. rewrite H1 in H5 |- *.
  rewrite !after_assert_true in H5 |- *.
  rewrite (after_transfer_ok tokenOutId) in H5 |- * by exact H4.
  cbn [balances set_balances enter] in H5.
  rewrite (after_transfer_ok tokenInId) by exact H5.
  cbn [pools balances set_balances enter].
  apply bool_decide_eq_true_1 in H1.
  apply N.leb_le in H4, H3, H5. apply N.ltb_lt in H2.
  repeat (split; [first [assumption | lia] |]). reflexivity.
Qed.

(** X8. A [buy] transaction is committed exactly when the pool of the
    pair exists, the amount asked is strictly below the pool's reserve of
    [tokenOutId], the padded reserve and the numerator pass the range
    check, the price floor(reserveIn * amountOut / (reserveOut -
    amountOut)) is at most [maxTokenInAmount] and the buyer holds it. It
    then moves [amountOut] from the pool account to the buyer and the
    price from the buyer to the pool account. *)
Theorem buy_commits_iff (from : PublicKey) (tokenInId tokenOutId : TokenId)
    (tokenOutAmount maxTokenInAmount : Balance) (s s' : State) :
  let pool := PoolKey.fromTokenIdPair tokenInId tokenOutId in
  let b := st_balances s in
  let reserveIn := balanceOf tokenInId pool b in
  let reserveOut := balanceOf tokenOutId pool b in
  let amountIn := reserveIn * tokenOutAmount / (reserveOut - tokenOutAmount) in
  let b1 := move tokenOutId pool from tokenOutAmount b in
  executeTx from
    (XYK.buy tokenInId tokenOutId tokenOutAmount maxTokenInAmount) s
  = (Succeeded, s')
  <-> is_Some (st_pools s !! pool)
      /\ tokenOutAmount < reserveOut
      /\ reserveOut + tokenOutAmount < 2 ^ NUM_BITS
      /\ reserveIn * tokenOutAmount < 2 ^ NUM_BITS
      /\ amountIn <= maxTokenInAmount
      /\ amountIn <= balanceOf tokenInId from b1
      /\ s' = mkState (st_pools s) (move tokenInId from pool amountIn b1).
Proof.
  cbv zeta. split; [apply buy_succeeded |].
  intros (Hkey & Hlt & Hpad & Hnum & Hmax & Hfunds & ->).
  rewrite buy_executeTx_dry.
  rewrite (fits_add_r _ _ (proj2 (fits_lt _) Hpad)).
  assert (Hrun := buy_final from tokenInId tokenOutId
                    tokenOutAmount maxTokenInAmount s).
  cbv zeta in Hrun.
  rewrite (proj2 (fits_lt _) Hpad), (proj2 (fits_lt _) Hnum) in Hrun.
  cbn [andb] in Hrun.
  rewrite (proj2 (N.leb_le _ _) (N.lt_le_incl _ _ Hlt)) in Hrun.
  cbv beta iota in Hrun.
  assert (Hden : 0 < balanceOf tokenOutId
                         (PoolKey.fromTokenIdPair tokenInId tokenOutId)
                         (st_balances s) - tokenOutAmount) by lia.
  rewrite (proj2 (N.ltb_lt _ _) Hden) in Hrun. cbv beta iota in Hrun.
  rewrite bool_decide_eq_true_2 in Hrun by exact Hkey.
  rewrite (proj2 (N.leb_le _ _) Hmax) in Hrun.
  rewrite !after_assert_true in Hrun.
  rewrite (after_transfer_ok tokenOutId) in Hrun
    by (apply N.leb_le; cbn [balances enter]; lia).
  rewrite (after_transfer_ok tokenInId) in Hrun
    by (apply N.leb_le; exact Hfunds).
  rewrite (commitTx_committed _ _ _ _ Hrun) by reflexivity. reflexivity.
Qed.

Lemma executeTx_unchanged (from : PublicKey) (method : M unit) (s : State) :
  (executeTx from method s).1 <> Succeeded ->
  (executeTx from method s).2 = s.
Proof.
  unfold executeTx, commitTx.
  destruct (method (enter from emptyState)); [reflexivity |].
  destruct (method (enter from s)) as [fault | [[] ctx]]; [reflexivity |].
  destruct (status ctx); [intros H; contradiction H |]; reflexivity.
Qed.

(** X9. A [buy] of the pool's whole reserve of [tokenOutId], or of more,
    is never committed, whatever the maximum offered: the price the padded
    branch computes is never charged, and the state stays as it was. *)
Theorem buy_beyond_reserve_never_commits (from : PublicKey)
    (tokenInId tokenOutId : TokenId)
    (tokenOutAmount maxTokenInAmount : Balance) (s : State) :
  balanceOf tokenOutId (PoolKey.fromTokenIdPair tokenInId tokenOutId)
    (st_balances s) <= tokenOutAmount ->
  (executeTx from
     (XYK.buy tokenInId tokenOutId tokenOutAmount maxTokenInAmount) s).1
  <> Succeeded
  /\ (executeTx from
        (XYK.buy tokenInId tokenOutId tokenOutAmount maxTokenInAmount) s).2
     = s.
Proof.
  intros Hbig.
  assert (Hno : (executeTx from
                   (XYK.buy tokenInId tokenOutId tokenOutAmount
                      maxTokenInAmount) s).1 <> Succeeded).
  { destruct (executeTx _ _ s) as [st s'] eqn:Htx. cbn [fst].
    intros ->. apply buy_succeeded in Htx as (_ & Hlt & _). lia. }
  split; [exact Hno | apply executeTx_unchanged; exact Hno].
Qed.

(** X13. A committed [buy] between different tokens, by a buyer other than
    the pool account, changes four balances and nothing else: the pool
    pays [amountOut] and the buyer receives it, the buyer pays
    [amountIn = floor(reserveIn * amountOut / (reserveOut - amountOut))]
    and the pool receives it. Every other balance and every pool marker is
    as before, and, the price being rounded down, the product of the
    pool's two reserves does not rise. *)
Theorem buy_conserves (from : PublicKey) (tokenInId tokenOutId : TokenId)
    (amountOut maxTokenInAmount : Balance) (s s' : State) :
  executeTx from (XYK.buy tokenInId tokenOutId amountOut maxTokenInAmount) s
  = (Succeeded, s') ->
  tokenInId <> tokenOutId ->
  from <> PoolKey.fromTokenIdPair tokenInId tokenOutId ->
  let pool := PoolKey.fromTokenIdPair tokenInId tokenOutId in
  let b := st_balances s in
  let b' := st_balances s' in
  let amountIn := balanceOf tokenInId pool b * amountOut
                  / (balanceOf tokenOutId pool b - amountOut) in
  st_pools s' = st_pools s
  /\ balanceOf tokenOutId pool b' + amountOut = balanceOf tokenOutId pool b
  /\ balanceOf tokenOutId from b' = balanceOf tokenOutId from b + amountOut
  /\ balanceOf tokenInId from b' + amountIn = balanceOf tokenInId from b
  /\ balanceOf tokenInId pool b' = balanceOf tokenInId pool b + amountIn
  /\ (forall (t : TokenId) (account : PublicKey),
        (t, account) <> (tokenInId, from) ->
        (t, account) <> (tokenInId, pool) ->
        (t, account) <> (tokenOutId, pool) ->
        (t, account) <> (tokenOutId, from) ->
        balanceOf t account b' = balanceOf t account b)
  /\ balanceOf tokenInId pool b' * balanceOf tokenOutId pool b'
     <= balanceOf tokenInId pool b * balanceOf tokenOutId pool b.
Proof.
  intros Htx Htok Hacc.
  apply buy_succeeded in Htx as (_ & Hlt & _ & _ & _ & Hfunds & ->).
  cbv zeta in *. cbn [st_pools st_balances].
  set (pool := PoolKey.fromTokenIdPair tokenInId tokenOutId) in *.
  set (b := st_balances s) in *.
  set (rIn := balanceOf tokenInId pool b) in *.
  set (rOut := balanceOf tokenOutId pool b) in *.
  pose proof (N.Div0.mul_div_le (rIn * amountOut) (rOut - amountOut))
    as Hfloor.
  set (amountIn := rIn * amountOut / (rOut - amountOut)) in *.
  revert Hfunds. read_balances. intros Hfunds.
  split; [reflexivity |].
  split; [lia |]. split; [reflexivity |].
  split; [lia |]. split; [reflexivity |].
  split.
  - intros t account Ha Hb Hc Hd. change PoolKey with PublicKey in *.
    read_balances. reflexivity.
  - clearbody amountIn. remember (rOut - amountOut) as d eqn:Hd.
    assert (Hr : rOut = d + amountOut) by lia.
    rewrite Hr. nia.
Qed.

(** X11. After a committed [createPool] by a creator other than the pool
    account, with an LP token that is neither token of the pair, the four
    quotes read the seeded reserves from the one pool account, in either
    direction of the pair: what was [tokenIn] at creation is [tokenOut]
    for the reverse swap. *)
Theorem createPool_then_quote (from who : PublicKey) (a b : TokenId)
    (seedA seedB amount : Balance) (s s' : State) :
  executeTx from (XYK.createPool a b seedA seedB) s = (Succeeded, s') ->
  from <> PoolKey.fromTokenIdPair a b ->
  LPTokenId.fromTokenIdPair a b <> a ->
  LPTokenId.fromTokenIdPair a b <> b ->
  let pool := PoolKey.fromTokenIdPair a b in
  let reserveA := balanceOf a pool (st_balances s) + seedA in
  let reserveB := balanceOf b pool (st_balances s) + seedB in
  XYK.calculateTokenOutAmount a b amount (enter who s')
  = XYK.calculateTokenOutAmountFromReserves reserveA reserveB amount
      (enter who s')
  /\ XYK.calculateTokenOutAmount b a amount (enter who s')
     = XYK.calculateTokenOutAmountFromReserves reserveB reserveA amount
         (enter who s')
  /\ XYK.calculateTokenInAmount a b amount (enter who s')
     = XYK.calculateTokenInAmountFromReserves reserveA reserveB amount
         (enter who s')
  /\ XYK.calculateTokenInAmount b a amount (enter who s')
     = XYK.calculateTokenInAmountFromReserves reserveB reserveA amount
         (enter who s').
Proof.
  intros Htx Hacc Hlp1 Hlp2.
  apply createPool_succeeded in Htx as (Hne & _ & _ & _ & ->).
  cbv zeta.
  rewrite !calculateTokenOutAmount_run, !calculateTokenInAmount_run.
  cbv zeta. rewrite (PoolKey_fromTokenIdPair_comm b a).
  cbn [balances enter st_balances].
  set (pool := PoolKey.fromTokenIdPair a b) in *.
  assert (Ha : balanceOf a pool
                 (credit (LPTokenId.fromTokenIdPair a b) from seedA
                    (move b from pool seedB
                       (move a from pool seedA (st_balances s))))
               = balanceOf a pool (st_balances s) + seedA).
  { read_balances. reflexivity. }
  assert (Hb : balanceOf b pool
                 (credit (LPTokenId.fromTokenIdPair a b) from seedA
                    (move b from pool seedB
                       (move a from pool seedA (st_balances s))))
               = balanceOf b pool (st_balances s) + seedB).
  { read_balances. reflexivity. }
  rewrite Ha, Hb. auto.
Qed.

(** X14. For an amount strictly below the pool's reserve of
    [tokenOutId], the outcome of a [buy] transaction is decided, in this
    order, by: the range checks on the padded reserve and the numerator (a
    fault, also when the pair has no pool); the marker of the pool
    ([errors.poolExists] when it is missing); the maximum input
    ([errors.tokenInAmountTooHigh]); the buyer's balance of [tokenInId]
    (InsufficientBalance). Otherwise the purchase is committed. *)
Theorem buy_outcome_within_reserve (from : PublicKey)
    (tokenInId tokenOutId : TokenId)
    (tokenOutAmount maxTokenInAmount : Balance) (s : State) :
  let pool := PoolKey.fromTokenIdPair tokenInId tokenOutId in
  let b := st_balances s in
  let reserveIn := balanceOf tokenInId pool b in
  let reserveOut := balanceOf tokenOutId pool b in
  let amountIn := reserveIn * tokenOutAmount / (reserveOut - tokenOutAmount) in
  let b1 := move tokenOutId pool from tokenOutAmount b in
  tokenOutAmount < reserveOut ->
  executeTx from
    (XYK.buy tokenInId tokenOutId tokenOutAmount maxTokenInAmount) s
  = if negb (Balance.fits (reserveOut + tokenOutAmount)
             && Balance.fits (reserveIn * tokenOutAmount))
    then (Threw RangeCheckFailed, s)
    else if negb (bool_decide (is_Some (st_pools s !! pool)))
    then (Failed (Some errors.poolExists), s)
    else if maxTokenInAmount <? amountIn
    then (Failed (Some errors.tokenInAmountTooHigh), s)
    else if balanceOf tokenInId from b1 <? amountIn
    then (Failed (Some Balances.insufficientBalance), s)
    else (Succeeded,
          mkState (st_pools s) (move tokenInId from pool amountIn b1)).
Proof.
  cbv zeta. intros Hlt. rewrite buy_executeTx_dry.
  destruct (Balance.fits tokenOutAmount) eqn:Hfits.
  2: { rewrite (fits_add_r_false _ _ Hfits). reflexivity. }
  clear Hfits.
  assert (Hrun := buy_final from tokenInId tokenOutId
                    tokenOutAmount maxTokenInAmount s).
  cbv zeta in Hrun.
  destruct (Balance.fits _ && Balance.fits _); cbn [negb];
    [| apply commitTx_threw; exact Hrun].
  rewrite (proj2 (N.leb_le _ _) (N.lt_le_incl _ _ Hlt)) in Hrun.
  cbv beta iota in Hrun.
  assert (Hden : 0 < balanceOf tokenOutId
                         (PoolKey.fromTokenIdPair tokenInId tokenOutId)
                         (st_balances s) - tokenOutAmount) by lia.
  rewrite (proj2 (N.ltb_lt _ _) Hden) in Hrun. cbv beta iota in Hrun.
  rewrite after_assert_true in Hrun.
  destruct (bool_decide _); cbn [negb].
  2: { eapply commitTx_failed; [exact Hrun |]. keep_failed. }
  rewrite after_assert_true in Hrun.
  rewrite (N.ltb_antisym _ maxTokenInAmount).
  destruct (_ <=? maxTokenInAmount); cbn [negb].
  2: { eapply commitTx_failed; [exact Hrun |]. keep_failed. }
  rewrite after_assert_true in Hrun.
  rewrite (after_transfer_ok tokenOutId) in Hrun
    by (apply N.leb_le; cbn [balances enter]; lia).
  cbn [balances set_balances enter] in Hrun.
  rewrite (N.ltb_antisym _ (balanceOf tokenInId from _)).
  destruct (_ <=? balanceOf tokenInId from _) eqn:Hfunds; cbn [negb].
  2: { eapply commitTx_failed; [exact Hrun |].
       rewrite (after_transfer_short tokenInId) by exact Hfunds.
       keep_failed. }
  rewrite (after_transfer_ok tokenInId) in Hrun by exact Hfunds.
  rewrite (commitTx_committed _ _ _ _ Hrun) by reflexivity. reflexivity.
Qed.

(** X15. The pool and its reserves do not depend on the order in which
    [createPool] is given the pair, the LP tokens minted do: committed
    from the same state, [createPool(a, b, seedA, seedB)] and
    [createPool(b, a, seedB, seedA)] leave the same marker and the same
    two reserves, but the first mints [seedA] and the second [seedB] of
    the one LP token (creator other than the pool account, LP token
    neither token of the pair). *)
Theorem createPool_direction (from : PublicKey) (a b : TokenId)
    (seedA seedB : Balance) (s s1 s2 : State) :
  executeTx from (XYK.createPool a b seedA seedB) s = (Succeeded, s1) ->
  executeTx from (XYK.createPool b a seedB seedA) s = (Succeeded, s2) ->
  from <> PoolKey.fromTokenIdPair a b ->
  LPTokenId.fromTokenIdPair a b <> a ->
  LPTokenId.fromTokenIdPair a b <> b ->
  let pool := PoolKey.fromTokenIdPair a b in
  let lp := LPTokenId.fromTokenIdPair a b in
  st_pools s1 = st_pools s2
  /\ balanceOf a pool (st_balances s1) = balanceOf a pool (st_balances s2)
  /\ balanceOf b pool (st_balances s1) = balanceOf b pool (st_balances s2)
  /\ balanceOf lp from (st_balances s1)
     = balanceOf lp from (st_balances s) + seedA
  /\ balanceOf lp from (st_balances s2)
     = balanceOf lp from (st_balances s) + seedB.
Proof.
  intros H1 H2 Hacc Hlp1 Hlp2.
  apply createPool_succeeded in H1 as (Hne & _ & _ & _ & ->).
  apply createPool_succeeded in H2 as (_ & _ & _ & _ & ->).
  cbv zeta. cbn [st_pools st_balances].
  rewrite (PoolKey_fromTokenIdPair_comm b a).
  rewrite (LPTokenId_fromTokenIdPair_comm b a).
  set (pool := PoolKey.fromTokenIdPair a b) in *.
  set (lp := LPTokenId.fromTokenIdPair a b) in *.
  split; [reflexivity |].
  split; [read_balances; reflexivity |].
  split; [read_balances; reflexivity |].
  split; read_balances; reflexivity.
Qed.

(** X16. Selling and selling back gives no profit: when a sale of
    [amountIn] returns [out], and the sale of that [out] in the reverse
    direction against the reserves the first sale leaves returns [back],
    then [back <= amountIn]. *)
Theorem sell_round_trip (reserveIn reserveOut amountIn out back : Balance)
    (c1 c1' c2 c2' : ExecutionContext) :
  XYK.calculateTokenOutAmountFromReserves reserveIn reserveOut amountIn c1
  = inr (out, c1') ->
  XYK.calculateTokenOutAmountFromReserves
    (reserveOut - out) (reserveIn + amountIn) out c2
  = inr (back, c2') ->
  back <= amountIn.
Proof.
  intros Hfirst Hsecond.
  pose proof (calculateTokenOutAmountFromReserves_le_reserve
                _ _ _ _ _ _ Hfirst) as Hle.
  apply calculateTokenOutAmountFromReserves_inv in Hfirst as (Hpos1 & Hout & _).
  apply calculateTokenOutAmountFromReserves_inv in Hsecond as (Hpos2 & -> & _).
  pose proof (N.Div0.mul_div_le (reserveOut * amountIn)
                (reserveIn + amountIn)) as Hfloor.
  rewrite <- Hout in Hfloor.
  replace (reserveOut - out + out) with reserveOut in * by lia.
  apply N.Div0.div_le_upper_bound. lia.
Qed.

End Outcomes.

(** ** The further properties on the fixtures *)

Lemma calculateTokenOutAmountFromReserves_bounds_witness :
  181 <= 2000
  /\ 181 * (1000 + 100) <= 2000 * 100
  /\ (0 < 1000 -> 0 < 2000 -> 181 < 2000).
Proof.
  exact (calculateTokenOutAmountFromReserves_bounds (W := w64)
           1000 2000 100 181 (enter alice funded) (enter alice funded)
           eq_refl).
Defined.

Lemma calculateTokenOutAmountFromReserves_product_witness :
  1000 * 2000 <= (1000 + 100) * (2000 - 181).
Proof.
  exact (calculateTokenOutAmountFromReserves_product (W := w64)
           1000 2000 100 181 (enter alice funded) (enter alice funded)
           eq_refl).
Defined.

(** One unit of a reserve of 2000 against 1000 is bought for nothing. *)
Lemma calculateTokenInAmountFromReserves_rounds_down_witness :
  XYK.calculateTokenInAmountFromReserves (W := w64) 1000 2000 1
    (enter alice funded)
  = inr (0, enter alice funded)
  /\ (1000 + 0) * (2000 - 1) <= 1000 * 2000.
Proof.
  assert (Hrun : XYK.calculateTokenInAmountFromReserves (W := w64) 1000 2000 1
                   (enter alice funded)
                 = inr (0, enter alice funded)) by (vm_compute; reflexivity).
  destruct (calculateTokenInAmountFromReserves_rounds_down (W := w64)
              1000 2000 1 0 (enter alice funded) (enter alice funded)
              eq_refl Hrun) as (_ & _ & Hproduct & _).
  split; [exact Hrun | exact Hproduct].
Defined.

Lemma buy_commits_iff_witness :
  exists s' : State,
    executeTx alice
      (XYK.buy (P := toyPoseidon) (W := w64) 0 1 200 10000) pooled
    = (Succeeded, s')
    /\ balanceOf 0 alice (st_balances s') = 9000 - 111.
Proof.
  eexists. split.
  - apply (buy_commits_iff (P := toyPoseidon) (W := w64)).
    split; [exists 0; vm_compute; reflexivity |].
    split; [vm_compute; reflexivity |].
    split; [vm_compute; reflexivity |].
    split; [vm_compute; reflexivity |].
    split; [vm_compute; discriminate |].
    split; [vm_compute; discriminate | reflexivity].
  - vm_compute. reflexivity.
Defined.

Lemma buy_beyond_reserve_never_commits_witness :
  (executeTx alice
     (XYK.buy (P := toyPoseidon) (W := w64) 0 1 2000 1000000) pooled).1
  <> Succeeded
  /\ (executeTx alice
        (XYK.buy (P := toyPoseidon) (W := w64) 0 1 2000 1000000) pooled).2
     = pooled.
Proof.
  apply (buy_beyond_reserve_never_commits (P := toyPoseidon) (W := w64)).
  vm_compute. discriminate.
Defined.

(** A pool may be created with nothing in it; a sale of nothing into it
    divides by zero. *)
Lemma sell_nothing_into_empty_reserve_witness :
  let empty := (executeTx alice
                  (XYK.createPool (P := toyPoseidon) 0 1 0 0) funded).2 in
  is_Some (st_pools empty !! PoolKey.fromTokenIdPair (P := toyPoseidon) 0 1)
  /\ executeTx alice (XYK.sell (P := toyPoseidon) (W := w64) 0 1 0 0) empty
     = (Threw DivisionByZero, empty).
Proof.
  cbv zeta. split; [exists 0; vm_compute; reflexivity |].
  apply (sell_nothing_into_empty_reserve (P := toyPoseidon) (W := w64)).
  vm_compute. reflexivity.
Defined.

Lemma sell_conserves_witness :
  let sold := (executeTx alice
                 (XYK.sell (P := toyPoseidon) (W := w64) 0 1 100 100)
                 pooled).2 in
  let pool := PoolKey.fromTokenIdPair (P := toyPoseidon) 0 1 in
  balanceOf 1 alice (st_balances sold)
  = balanceOf 1 alice (st_balances pooled)
    + balanceOf 1 pool (st_balances pooled) * 100
      / (balanceOf 0 pool (st_balances pooled) + 100)
  /\ balanceOf 0 pool (st_balances pooled) * balanceOf 1 pool (st_balances pooled)
     <= balanceOf 0 pool (st_balances sold) * balanceOf 1 pool (st_balances sold).
Proof.
  cbv zeta.
  set (sold := (executeTx alice
                  (XYK.sell (P := toyPoseidon) (W := w64) 0 1 100 100)
                  pooled).2).
  assert (Htx : executeTx alice
                  (XYK.sell (P := toyPoseidon) (W := w64) 0 1 100 100) pooled
                = (Succeeded, sold)) by (vm_compute; reflexivity).
  assert (Htok : (0 : TokenId) <> 1) by discriminate.
  assert (Hacc : alice <> PoolKey.fromTokenIdPair (P := toyPoseidon) 0 1)
    by (intros E; vm_compute in E; discriminate E).
  destruct (sell_conserves (P := toyPoseidon) (W := w64)
              alice 0 1 100 100 pooled sold Htx Htok Hacc)
    as (_ & _ & _ & _ & Hout & _ & Hproduct).
  split; [exact Hout | exact Hproduct].
Defined.

Lemma buy_conserves_witness :
  let bought := (executeTx alice
                   (XYK.buy (P := toyPoseidon) (W := w64) 0 1 200 10000)
                   pooled).2 in
  let pool := PoolKey.fromTokenIdPair (P := toyPoseidon) 0 1 in
  balanceOf 1 alice (st_balances bought)
  = balanceOf 1 alice (st_balances pooled) + 200
  /\ balanceOf 0 pool (st_balances bought)
     * balanceOf 1 pool (st_balances bought)
     <= balanceOf 0 pool (st_balances pooled)
        * balanceOf 1 pool (st_balances pooled).
Proof.
  cbv zeta.
  set (bought := (executeTx alice
                    (XYK.buy (P := toyPoseidon) (W := w64) 0 1 200 10000)
                    pooled).2).
  assert (Htx : executeTx alice
                  (XYK.buy (P := toyPoseidon) (W := w64) 0 1 200 10000) pooled
                = (Succeeded, bought)) by (vm_compute; reflexivity).
  assert (Htok : (0 : TokenId) <> 1) by discriminate.
  assert (Hacc : alice <> PoolKey.fromTokenIdPair (P := toyPoseidon) 0 1)
    by (intros E; vm_compute in E; discriminate E).
  destruct (buy_conserves (P := toyPoseidon) (W := w64)
              alice 0 1 200 10000 pooled bought Htx Htok Hacc)
    as (_ & _ & Hout & _ & _ & _ & Hproduct).
  split; [exact Hout | exact Hproduct].
Defined.

Lemma createPool_then_quote_witness :
  XYK.calculateTokenOutAmount (P := toyPoseidon) (W := w64) 1 0 100
    (enter alice pooled)
  = XYK.calculateTokenOutAmountFromReserves (W := w64)
      (balanceOf 1 (PoolKey.fromTokenIdPair (P := toyPoseidon) 0 1)
         (st_balances funded) + 2000)
      (balanceOf 0 (PoolKey.fromTokenIdPair (P := toyPoseidon) 0 1)
         (st_balances funded) + 1000)
      100 (enter alice pooled).
Proof.
  assert (Htx : executeTx alice
                  (XYK.createPool (P := toyPoseidon) 0 1 1000 2000) funded
                = (Succeeded, pooled)) by (vm_compute; reflexivity).
  destruct (createPool_then_quote (P := toyPoseidon) (W := w64)
              alice alice 0 1 1000 2000 100 funded pooled Htx)
    as (_ & Hreverse & _ & _);
    try (intros E; vm_compute in E; discriminate E).
  exact Hreverse.
Defined.

Lemma buy_outcome_within_reserve_witness :
  executeTx alice (XYK.buy (P := toyPoseidon) (W := w64) 0 1 200 110) pooled
  = (Failed (Some errors.tokenInAmountTooHigh), pooled).
Proof.
  rewrite (buy_outcome_within_reserve (P := toyPoseidon) (W := w64))
    by (vm_compute; reflexivity).
  vm_compute. reflexivity.
Defined.

Lemma createPool_direction_witness :
  let reversed := (executeTx alice
                     (XYK.createPool (P := toyPoseidon) 1 0 2000 1000)
                     funded).2 in
  let lp := LPTokenId.fromTokenIdPair (P := toyPoseidon) 0 1 in
  st_pools pooled = st_pools reversed
  /\ balanceOf lp alice (st_balances pooled)
     = balanceOf lp alice (st_balances funded) + 1000
  /\ balanceOf lp alice (st_balances reversed)
     = balanceOf lp alice (st_balances funded) + 2000.
Proof.
  cbv zeta.
  set (reversed := (executeTx alice
                      (XYK.createPool (P := toyPoseidon) 1 0 2000 1000)
                      funded).2).
  assert (H1 : executeTx alice
                 (XYK.createPool (P := toyPoseidon) 0 1 1000 2000) funded
               = (Succeeded, pooled)) by (vm_compute; reflexivity).
  assert (H2 : executeTx alice
                 (XYK.createPool (P := toyPoseidon) 1 0 2000 1000) funded
               = (Succeeded, reversed)) by (vm_compute; reflexivity).
  destruct (createPool_direction (P := toyPoseidon)
              alice 0 1 1000 2000 funded pooled reversed H1 H2)
    as (Hpools & _ & _ & Hlp1 & Hlp2);
    try (intros E; vm_compute in E; discriminate E).
  split; [exact Hpools |]. split; [exact Hlp1 | exact Hlp2].
Defined.

(** 100 sold for 181, the 181 sold back for 99. *)
Lemma sell_round_trip_witness : 99 <= 100.
Proof.
  exact (sell_round_trip (W := w64) 1000 2000 100 181 99
           (enter alice funded) (enter alice funded)
           (enter alice funded) (enter alice funded) eq_refl eq_refl).
Defined.
